(** * ARR rollforward engine: a shallow embedding of [saas_data_engineering.py]

    The pipeline of the repository ([step2_data_cleaning] ..
    [step6_data_validation]), the checks of
    [data_validation_checker.py], the consumers in [app.py]
    ([get_kpis], [get_waterfall], [get_trend], [get_segments]) and the
    two summaries of [executive_arr_dashboard.py] are transcribed as
    Rocq functions over lists of records, one record per data-frame
    row.  Printing and file input/output are left out.

    Conventions of the embedding.
    - Monetary amounts are exact rationals ([Q]): sums, products and
      comparisons are those of the code without binary rounding,
      overflow or signed zeros.  A missing numeric cell (pandas [NaN]
      after [to_numeric(errors='coerce')]) is [None].  The places where
      the code can produce an infinity or a fresh [NaN] are its
      divisions, whose results are carried in [fval]; the growth rate,
      which also depends on how a quotient and a product are rounded,
      is computed with IEEE 754 binary64 operations.
    - Dates are calendar days (year, month, day), as in the date-only
      cells of the CSV files; a missing date ([NaT]) is [None].
      [datetime + timedelta(days=n)] is the n-fold successor on calendar
      days; the pipeline fails where Python's [datetime] leaves its
      range of years.
    - The ['%Y-%m'] month key is the pair (year, month); on such keys
      the order of the zero-padded strings is the lexicographic order of
      the pair.
    - A call that raises in Python returns [None]. *)

From Stdlib Require Import String ZArith QArith Qabs Qround List Bool Lia Lqa.
From Stdlib Require Import SpecFloat.
From Stdlib Require Import Sorting.Sorted.
Import ListNotations.

Local Open Scope Z_scope.

(* ------------------------------------------------------------------ *)
(** ** Calendar dates *)

Module Calendar.

Record date : Type := mkdate { year : Z; month : Z; day : Z }.

Definition is_leap (y : Z) : bool :=
  ((y mod 4 =? 0) && negb (y mod 100 =? 0)) || (y mod 400 =? 0).

Definition days_in_month (y m : Z) : Z :=
  if m =? 2 then (if is_leap y then 29 else 28)
  else if (m =? 4) || (m =? 6) || (m =? 9) || (m =? 11) then 30
  else 31.

(** A (year, month, day) triple that names a day of the calendar. *)
Definition valid_date (d : date) : Prop :=
  1 <= month d <= 12 /\ 1 <= day d <= days_in_month (year d) (month d).

Definition next_day (d : date) : date :=
  if day d <? days_in_month (year d) (month d)
  then mkdate (year d) (month d) (day d + 1)
  else if month d <? 12
       then mkdate (year d) (month d + 1) 1
       else mkdate (year d + 1) 1 1.

Definition prev_day (d : date) : date :=
  if 1 <? day d
  then mkdate (year d) (month d) (day d - 1)
  else if 1 <? month d
       then mkdate (year d) (month d - 1) (days_in_month (year d) (month d - 1))
       else mkdate (year d - 1) 12 31.

(** [d + timedelta(days=n)] and [d - timedelta(days=n)], [n >= 0]. *)
Fixpoint add_days (d : date) (n : nat) : date :=
  match n with
  | O => d
  | S k => add_days (next_day d) k
  end.

Fixpoint sub_days (d : date) (n : nat) : date :=
  match n with
  | O => d
  | S k => sub_days (prev_day d) k
  end.

(** [d.replace(day=k)] *)
Definition replace_day (d : date) (k : Z) : date :=
  mkdate (year d) (month d) k.

(** Chronological comparisons ([<=] and [>] on timestamps at midnight). *)
Definition date_ltb (a b : date) : bool :=
  (year a <? year b)
  || ((year a =? year b)
      && ((month a <? month b)
          || ((month a =? month b) && (day a <? day b)))).

Definition date_leb (a b : date) : bool := negb (date_ltb b a).

Definition date_lt (a b : date) : Prop :=
  year a < year b
  \/ (year a = year b
      /\ (month a < month b \/ (month a = month b /\ day a < day b))).

Definition date_le (a b : date) : Prop :=
  year a < year b
  \/ (year a = year b
      /\ (month a < month b \/ (month a = month b /\ day a <= day b))).

End Calendar.
Export Calendar.

(* ------------------------------------------------------------------ *)
(** ** Month keys *)

Record month_key : Type := mkym { ym_year : Z; ym_month : Z }.

(** [dt.strftime('%Y-%m')] *)
Definition strftime_ym (d : date) : month_key := mkym (year d) (month d).

(** [datetime.strptime(month, '%Y-%m')]: the first day of the month. *)
Definition strptime_ym (k : month_key) : date :=
  mkdate (ym_year k) (ym_month k) 1.

Definition ym_ltb (a b : month_key) : bool :=
  (ym_year a <? ym_year b)
  || ((ym_year a =? ym_year b) && (ym_month a <? ym_month b)).

Definition ym_eqb (a b : month_key) : bool :=
  (ym_year a =? ym_year b) && (ym_month a =? ym_month b).

Definition ym_leb (a b : month_key) : bool := negb (ym_ltb b a).

Definition ym_lt (a b : month_key) : Prop :=
  ym_year a < ym_year b \/ (ym_year a = ym_year b /\ ym_month a < ym_month b).

(** Lines 177-179 of [step4_arr_calculations]:
<<
    month_date = datetime.strptime(month, '%Y-%m')
    month_end = month_date.replace(day=28) + timedelta(days=4)
    month_end = month_end - timedelta(days=month_end.day)
>> *)
Definition month_end (k : month_key) : date :=
  let month_date := strptime_ym k in
  let overshoot := add_days (replace_day month_date 28) 4 in
  sub_days overshoot (Z.to_nat (day overshoot)).

(** The last calendar day of a month, stated directly. *)
Definition last_day_of_month (k : month_key) : date :=
  mkdate (ym_year k) (ym_month k) (days_in_month (ym_year k) (ym_month k)).

(** Python's [datetime] covers the years 1 to 9999. *)
Definition in_datetime_range (dt : date) : bool :=
  (1 <=? year dt) && (year dt <=? 9999).

(** What [strptime] accepts for ['%Y-%m']: a year in the range of
    [datetime] and a month from 1 to 12.  The text of a key is not
    modelled; a year below 1000 is taken to be written with four
    digits. *)
Definition strptime_accepts (k : month_key) : bool :=
  in_datetime_range (strptime_ym k)
  && (1 <=? ym_month k) && (ym_month k <=? 12).

(** Lines 177-179 with their failures.  [month_end] above is the date
    arithmetic alone; here [strptime] rejects a key it cannot read
    ([ValueError]) and adding the four days raises [OverflowError] when
    the sum leaves the range of [datetime], which it does for December
    9999.  [None] stands for either exception. *)
Definition month_end_checked (k : month_key) : option date :=
  if strptime_accepts k
  then
    let month_date := strptime_ym k in
    let overshoot := add_days (replace_day month_date 28) 4 in
    if in_datetime_range overshoot
    then Some (sub_days overshoot (Z.to_nat (day overshoot)))
    else None
  else None.

Definition month_end_raises (k : month_key) : bool :=
  match month_end_checked k with
  | Some _ => false
  | None => true
  end.

(* ------------------------------------------------------------------ *)
(** ** Numbers *)

Local Open Scope Q_scope.

Definition Qltb (x y : Q) : bool := negb (Qle_bool y x).

(** [sum()] of a numeric column. *)
Definition Qsum (l : list Q) : Q := fold_right Qplus 0 l.

(** [sum()] of a column with missing cells: pandas skips [NaN].  The sum
    is the exact one: the rounding of a float64 column and the
    wrap-around of an int64 column are outside the model. *)
Fixpoint nansum (l : list (option Q)) : Q :=
  match l with
  | [] => 0
  | Some x :: r => x + nansum r
  | None :: r => nansum r
  end.

(** A float cell that may be infinite or not-a-number. *)
Inductive fval : Type :=
| FNum (q : Q)
| FPosInf
| FNegInf
| FNaN.

Definition notna (x : fval) : bool :=
  match x with FNaN => false | _ => true end.

Definition fneg (x : fval) : fval :=
  match x with
  | FNum q => FNum (- q)
  | FPosInf => FNegInf
  | FNegInf => FPosInf
  | FNaN => FNaN
  end.

Definition fadd (x y : fval) : fval :=
  match x, y with
  | FNaN, _ | _, FNaN => FNaN
  | FNum a, FNum b => FNum (a + b)
  | FPosInf, FNegInf | FNegInf, FPosInf => FNaN
  | FPosInf, _ | _, FPosInf => FPosInf
  | FNegInf, _ | _, FNegInf => FNegInf
  end.

Definition fsub (x y : fval) : fval := fadd x (fneg y).

(** The infinity carrying the sign of [q], [q] not zero. *)
Definition inf_of_sign (q : Q) : fval :=
  if Qltb 0 q then FPosInf else FNegInf.

Definition fmul (x y : fval) : fval :=
  match x, y with
  | FNaN, _ | _, FNaN => FNaN
  | FNum a, FNum b => FNum (a * b)
  | FNum a, FPosInf | FPosInf, FNum a =>
      if Qeq_bool a 0 then FNaN else inf_of_sign a
  | FNum a, FNegInf | FNegInf, FNum a =>
      if Qeq_bool a 0 then FNaN else inf_of_sign (- a)
  | FPosInf, FPosInf | FNegInf, FNegInf => FPosInf
  | FPosInf, FNegInf | FNegInf, FPosInf => FNegInf
  end.

(** Float division as numpy performs it: dividing by zero raises
    nothing, it yields an infinity, or [NaN] for 0/0. *)
Definition fdiv (x y : fval) : fval :=
  match x, y with
  | FNaN, _ | _, FNaN => FNaN
  | FNum a, FNum b =>
      if Qeq_bool b 0
      then (if Qeq_bool a 0 then FNaN else inf_of_sign a)
      else FNum (a / b)
  | FNum _, _ => FNum 0
  | FPosInf, FNum b => if Qltb b 0 then FNegInf else FPosInf
  | FNegInf, FNum b => if Qltb b 0 then FPosInf else FNegInf
  | _, _ => FNaN
  end.

(** [numpy.rint]: the nearest integer, ties to the even one. *)
Definition rint (q : Q) : Z :=
  let f := Qfloor q in
  let r := q - inject_Z f in
  if Qltb r (1 # 2) then f
  else if Qltb (1 # 2) r then (f + 1)%Z
  else if Z.even f then f else (f + 1)%Z.

(** *** Binary64 arithmetic

    The growth rate is the one column whose value depends on how the
    machine rounds a quotient and a product, so it is computed here with
    the IEEE 754 binary64 operations of the standard library
    ([SpecFloat], precision 53, round to nearest even). *)

Definition b64_of_Z (z : Z) : spec_float := binary_normalize 53 1024 z 0 false.

(** The double nearest to a rational, from its reduced fraction: exact
    when the rational is a double, correctly rounded when numerator and
    denominator are below 2^53 (a decimal literal of a CSV cell). *)
Definition b64_of_Q (q : Q) : spec_float :=
  let r := Qred q in
  SFdiv 53 1024 (b64_of_Z (Qnum r)) (b64_of_Z (Zpos (Qden r))).

Definition b64_of_fval (x : fval) : spec_float :=
  match x with
  | FNum q => b64_of_Q q
  | FPosInf => S754_infinity false
  | FNegInf => S754_infinity true
  | FNaN => S754_nan
  end.

(** The exact value of a double. *)
Definition fval_of_b64 (f : spec_float) : fval :=
  match f with
  | S754_zero _ => FNum 0
  | S754_infinity false => FPosInf
  | S754_infinity true => FNegInf
  | S754_nan => FNaN
  | S754_finite s m e =>
      let n := if s then Zneg m else Zpos m in
      match e with
      | Zneg k => FNum (n # Pos.shiftl 1 (Npos k))
      | _ => FNum (inject_Z (n * 2 ^ e))
      end
  end.

(** [numpy.rint] on a double: an integer below 2^53 is a double, and a
    double of larger magnitude is already an integer. *)
Definition np_rint (f : spec_float) : spec_float :=
  match f with
  | S754_finite s _ _ =>
      match fval_of_b64 f with
      | FNum q => binary_normalize 53 1024 (rint q) 0 s
      | _ => f
      end
  | _ => f
  end.

(** [ndarray.round(2)]: multiply by 100.0, [rint], divide by 100.0. *)
Definition np_round2 (f : spec_float) : spec_float :=
  SFdiv 53 1024 (np_rint (SFmul 53 1024 f (b64_of_Z 100))) (b64_of_Z 100).

(** Line 207: [(arr_growth_amount / previous_arr * 100).round(2)]. *)
Definition growth_rate_pct (arr_growth_amount previous_arr : fval) : fval :=
  fval_of_b64
    (np_round2
       (SFmul 53 1024
          (SFdiv 53 1024 (b64_of_fval arr_growth_amount) (b64_of_fval previous_arr))
          (b64_of_Z 100))).

Definition fltb (x y : fval) : bool :=
  match x, y with
  | FNaN, _ | _, FNaN => false
  | FNum a, FNum b => Qltb a b
  | FNegInf, FNegInf | FPosInf, _ => false
  | FNegInf, _ | _, FPosInf => true
  | FNum _, FNegInf => false
  end.

(** [Series.mean()]: missing cells are skipped; no cell left gives [NaN]. *)
Definition fmean (l : list fval) : fval :=
  let present := filter notna l in
  match present with
  | [] => FNaN
  | _ => fdiv (fold_right fadd (FNum 0) present)
              (FNum (inject_Z (Z.of_nat (length present))))
  end.

(* ------------------------------------------------------------------ *)
(** ** Input rows *)

(** A row of [saas_subscriptions.csv] once [step2_data_cleaning] has
    parsed its dates and amounts.  Cleaning removes no subscription. *)
Record subscription : Type := mksub {
  customer_id : option Z;
  start_date : option date;
  end_date : option date;
  arr_amount : option Q
}.

(** A row of [saas_transactions.csv] after parsing, before [dropna]. *)
Record raw_transaction : Type := mkraw {
  raw_transaction_date : option date;
  raw_transaction_type : string;
  raw_amount : option Q
}.

(** A transaction row that survived [dropna]. *)
Record transaction : Type := mktxn {
  transaction_date : date;
  transaction_type : string;
  amount : Q
}.

(** [transactions_df.dropna(subset=['transaction_date', 'amount'])] *)
Definition dropna (rows : list raw_transaction) : list transaction :=
  flat_map
    (fun r =>
       match raw_transaction_date r, raw_amount r with
       | Some d, Some a => [mktxn d (raw_transaction_type r) a]
       | _, _ => []
       end)
    rows.

(** [step2_data_cleaning]: the subscriptions are returned as they came;
    only transactions lacking a date or an amount are removed. *)
Definition step2_data_cleaning
  (subscriptions_df : list subscription) (transactions_df : list raw_transaction)
  : list subscription * list transaction :=
  (subscriptions_df, dropna transactions_df).

(* ------------------------------------------------------------------ *)
(** ** Step 3: feature engineering *)

(** The activity test used for [is_active] (with the run date) and for
    every month-end snapshot:
<<
    (start_date <= d) & (end_date.isna() | (end_date > d))
>>
    A comparison with a missing date is false. *)
Definition active_on (s : subscription) (d : date) : bool :=
  match start_date s with
  | Some sd => date_leb sd d
  | None => false
  end
  &&
  match end_date s with
  | None => true
  | Some ed => date_ltb d ed
  end.

Inductive segment : Type := SMB | MidMarket | Enterprise | Strategic.

Definition segment_label (g : segment) : string :=
  match g with
  | SMB => "SMB"
  | MidMarket => "Mid-Market"
  | Enterprise => "Enterprise"
  | Strategic => "Strategic"
  end%string.

(** A bin edge of [pd.cut]; [float('inf')] is [PosInf]. *)
Inductive edge : Type :=
| Edge (q : Q)
| PosInf.

Definition edge_below (e : edge) (x : Q) : bool :=
  match e with
  | Edge q => Qltb q x
  | PosInf => false
  end.

(** [bins.searchsorted(x, side='left')] on ascending edges: how many
    edges lie strictly below [x]. *)
Fixpoint searchsorted_left (bins : list edge) (x : Q) : nat :=
  match bins with
  | [] => O
  | e :: rest => if edge_below e x then S (searchsorted_left rest x) else O
  end.

(** [pd.cut(x, bins, labels)] with the defaults [right=True],
    [include_lowest=False]: a value at or below the first edge, above
    the last one, or missing, gets no label. *)
Definition cut {L : Type} (x : option Q) (bins : list edge) (labels : list L)
  : option L :=
  match x with
  | None => None
  | Some v =>
      let ids := searchsorted_left bins v in
      if (ids =? 0)%nat || (ids =? length bins)%nat
      then None
      else nth_error labels (ids - 1)
  end.

Definition segment_bins : list edge := [Edge 0; Edge 600; Edge 2400; Edge 6000; PosInf].
Definition segment_labels : list segment := [SMB; MidMarket; Enterprise; Strategic].

(** The label computed for a present amount. *)
Definition segment_of (a : Q) : option segment :=
  cut (Some a) segment_bins segment_labels.

Module Sub.
(** A subscription row with the columns [step3_feature_engineering] adds. *)
Record row : Type := mk {
  base : subscription;
  is_active : bool;
  customer_segment : option segment
}.
End Sub.

Module Txn.
(** A transaction row with the columns [step3_feature_engineering] adds. *)
Record row : Type := mk {
  base : transaction;
  year_month : month_key;
  annualized_amount : Q
}.
End Txn.

(** The lambda of lines 132-135:
<<
    row['amount'] * 12 if row['transaction_type'] in
        ['new', 'expansion', 'contraction'] else abs(row['amount']) * 12
>> *)
Definition annualize (t : transaction) : Q :=
  if existsb (String.eqb (transaction_type t))
             ["new"; "expansion"; "contraction"]%string
  then amount t * 12
  else Qabs (amount t) * 12.

Definition step3_subscription (current_date : date) (s : subscription) : Sub.row :=
  Sub.mk s (active_on s current_date)
         (cut (arr_amount s) segment_bins segment_labels).

Definition step3_transaction (t : transaction) : Txn.row :=
  Txn.mk t (strftime_ym (transaction_date t)) (annualize t).

(** [step3_feature_engineering]; [current_date] is the day of
    [datetime.now()]. *)
Definition step3_feature_engineering (current_date : date)
  (subscriptions_df : list subscription) (transactions_df : list transaction)
  : list Sub.row * list Txn.row :=
  (map (step3_subscription current_date) subscriptions_df,
   map step3_transaction transactions_df).

(* ------------------------------------------------------------------ *)
(** ** Step 4: monthly summary and rollforward *)

(** [Series.unique()]: first occurrences, in order of appearance. *)
Fixpoint unique (l : list month_key) : list month_key :=
  match l with
  | [] => []
  | k :: rest => k :: filter (fun k' => negb (ym_eqb k k')) (unique rest)
  end.

Fixpoint insert_sorted (k : month_key) (l : list month_key) : list month_key :=
  match l with
  | [] => [k]
  | x :: rest => if ym_leb k x then k :: l else x :: insert_sorted k rest
  end.

(** [sorted(...)] on month keys. *)
Definition sorted (l : list month_key) : list month_key :=
  fold_right insert_sorted [] l.

Module Monthly.
(** A dictionary appended to [monthly_arr_data]. *)
Record row : Type := mk {
  month : month_key;
  month_date : date;
  new_arr : Q;
  expansion_arr : Q;
  contraction_arr : Q;
  churned_arr : Q;
  net_new_arr : Q;
  current_arr : Q;
  active_customers : nat;
  arr_per_customer : fval
}.
End Monthly.

Module Summary.
(** A row of [arr_summary_df]: the monthly dictionary and the three
    growth columns added afterwards. *)
Record row : Type := mk {
  data : Monthly.row;
  previous_arr : fval;
  arr_growth_amount : fval;
  arr_growth_rate : fval
}.
Definition month (r : row) := Monthly.month (data r).
Definition current_arr (r : row) := Monthly.current_arr (data r).
Definition active_customers (r : row) := Monthly.active_customers (data r).
Definition arr_per_customer (r : row) := Monthly.arr_per_customer (data r).
End Summary.

Module Rollforward.
(** A row of [arr_rollforward_df], the bridge record of one month. *)
Record row : Type := mk {
  month : month_key;
  starting_arr : Q;
  new_arr : Q;
  expansion_arr : Q;
  contraction_arr : Q;
  churned_arr : Q;
  ending_arr : Q;
  net_change : Q;
  growth_rate : fval
}.
End Rollforward.

(** [month_transactions[month_transactions['transaction_type'] == ty]
      ['annualized_amount'].sum()] *)
Definition type_sum (ty : string) (month_transactions : list Txn.row) : Q :=
  Qsum (map Txn.annualized_amount
            (filter (fun t => String.eqb (transaction_type (Txn.base t)) ty)
                    month_transactions)).

(** The subscriptions selected at lines 181-184. *)
Definition active_subs_month (subscriptions_df : list Sub.row) (as_of : date)
  : list Sub.row :=
  filter (fun s => active_on (Sub.base s) as_of) subscriptions_df.

(** Point-in-time ARR: [active_subs_month['arr_amount'].sum()]. *)
Definition month_arr (subscriptions_df : list Sub.row) (as_of : date) : Q :=
  nansum (map (fun s => arr_amount (Sub.base s))
              (active_subs_month subscriptions_df as_of)).

(** One turn of the loop over [all_months] (lines 166-200). *)
Definition monthly_row (subscriptions_df : list Sub.row)
  (transactions_df : list Txn.row) (month : month_key) : Monthly.row :=
  let month_transactions :=
    filter (fun t => ym_eqb (Txn.year_month t) month) transactions_df in
  let new_arr := type_sum "new" month_transactions in
  let expansion_arr := type_sum "expansion" month_transactions in
  let contraction_arr := type_sum "contraction" month_transactions in
  let churned_arr := type_sum "churn" month_transactions in
  let month_end := month_end month in
  let month_arr := month_arr subscriptions_df month_end in
  let month_customers := length (active_subs_month subscriptions_df month_end) in
  Monthly.mk month month_end new_arr expansion_arr contraction_arr churned_arr
    (new_arr + expansion_arr - contraction_arr - churned_arr)
    month_arr month_customers
    (if (0 <? month_customers)%nat
     then fdiv (FNum month_arr) (FNum (inject_Z (Z.of_nat month_customers)))
     else FNum 0).

Definition all_months (transactions_df : list Txn.row) : list month_key :=
  sorted (unique (map Txn.year_month transactions_df)).

Definition monthly_arr_data (subscriptions_df : list Sub.row)
  (transactions_df : list Txn.row) : list Monthly.row :=
  map (monthly_row subscriptions_df transactions_df) (all_months transactions_df).

(** [Series.shift(1)]: every cell moves one row down, the first row
    receives [NaN]. *)
Fixpoint shift_from (carried : fval) (l : list Q) : list fval :=
  match l with
  | [] => []
  | x :: rest => carried :: shift_from (FNum x) rest
  end.

Definition shift1 (l : list Q) : list fval := shift_from FNaN l.

(** Lines 205-207: [previous_arr], [arr_growth_amount], [arr_growth_rate]. *)
Definition growth_columns (rows : list Monthly.row) : list Summary.row :=
  map (fun '(r, previous_arr) =>
         let arr_growth_amount := fsub (FNum (Monthly.current_arr r)) previous_arr in
         Summary.mk r previous_arr arr_growth_amount
           (growth_rate_pct arr_growth_amount previous_arr))
      (combine rows (shift1 (map Monthly.current_arr rows))).

(** [DataFrame.iterrows()] on a default index: position and row. *)
Definition iterrows {A : Type} (df : list A) : list (nat * A) :=
  combine (seq 0 (length df)) df.

(** Lines 212-226.  [arr_summary_df.iloc[i-1]] is read only for
    positions [i >= 1] of the frame being iterated, where it exists. *)
Definition rollforward_data (arr_summary_df : list Summary.row)
  : list Rollforward.row :=
  map (fun '(i, row) =>
         let starting_arr :=
           if (i =? 0)%nat then 0
           else nth (i - 1) (map Summary.current_arr arr_summary_df) 0 in
         Rollforward.mk
           (Summary.month row)
           starting_arr
           (Monthly.new_arr (Summary.data row))
           (Monthly.expansion_arr (Summary.data row))
           (- Monthly.contraction_arr (Summary.data row))
           (- Monthly.churned_arr (Summary.data row))
           (Summary.current_arr row)
           (Monthly.net_new_arr (Summary.data row))
           (Summary.arr_growth_rate row))
      (iterrows arr_summary_df).

(** [step4_arr_calculations] returns the summary and the bridge.  The
    run raises, and produces no chain, when the month end of one of the
    months cannot be computed, and when there is no month at all: the
    summary frame then has no column and reading ['current_arr'] raises
    [KeyError]. *)
Definition step4_arr_calculations (subscriptions_df : list Sub.row)
  (transactions_df : list Txn.row)
  : option (list Summary.row * list Rollforward.row) :=
  if existsb month_end_raises (all_months transactions_df)
  then None
  else
    match monthly_arr_data subscriptions_df transactions_df with
    | [] => None
    | rows =>
        let arr_summary_df := growth_columns rows in
        Some (arr_summary_df, rollforward_data arr_summary_df)
    end.

(* ------------------------------------------------------------------ *)
(** ** Step 6: validation *)

(** The entries of [validation_issues].  The first two messages quote
    the offending figure; the rollforward message is a fixed sentence. *)
Inductive validation_issue : Type :=
| ArrPerCustomerOutsideRange (avg_arr_per_customer : fval)
| GrowthRateUnrealistic (avg_growth : fval)
| RollforwardMathWrong.

(** [df.iloc[-1]]; [None] stands for the [IndexError] on an empty frame. *)
Definition iloc_last {A : Type} (df : list A) : option A :=
  match df with
  | [] => None
  | x :: rest => Some (last rest x)
  end.

(** [starting_arr + new_arr + expansion_arr + contraction_arr + churned_arr] *)
Definition calculated_ending (r : Rollforward.row) : Q :=
  Rollforward.starting_arr r + Rollforward.new_arr r
  + Rollforward.expansion_arr r + Rollforward.contraction_arr r
  + Rollforward.churned_arr r.

(** Lines 299-306: the rollforward check reads the last bridge row. *)
Definition rollforward_math_issues (rollforward_check : Rollforward.row)
  : list validation_issue :=
  if Qltb 100 (Qabs (calculated_ending rollforward_check
                     - Rollforward.ending_arr rollforward_check))
  then [RollforwardMathWrong]
  else [].

(** The list [validation_issues] built by [step6_data_validation]. *)
Definition validation_issues (arr_summary_df : list Summary.row)
  (arr_rollforward_df : list Rollforward.row) : option (list validation_issue) :=
  match iloc_last arr_summary_df, iloc_last arr_rollforward_df with
  | Some latest_month, Some rollforward_check =>
      let avg_arr_per_customer := Summary.arr_per_customer latest_month in
      let avg_growth := fmean (map Summary.arr_growth_rate arr_summary_df) in
      Some
        ((if fltb avg_arr_per_customer (FNum 300)
             || fltb (FNum 5000) avg_arr_per_customer
          then [ArrPerCustomerOutsideRange avg_arr_per_customer] else [])
         ++ (if fltb avg_growth (FNum (-10)) || fltb (FNum 50) avg_growth
             then [GrowthRateUnrealistic avg_growth] else [])
         ++ rollforward_math_issues rollforward_check)
  | _, _ => None
  end.

(** [step6_data_validation] returns [len(validation_issues) == 0]. *)
Definition step6_data_validation (arr_summary_df : list Summary.row)
  (arr_rollforward_df : list Rollforward.row) : option bool :=
  option_map (fun issues => (length issues =? 0)%nat)
             (validation_issues arr_summary_df arr_rollforward_df).

(** [waterfall_match] of [validate_dashboard_data] (lines 84-96 of
    [data_validation_checker.py]): the same sum on the last bridge row,
    accepted below the same constant. *)
Definition waterfall_match (arr_rollforward : list Rollforward.row) : option bool :=
  option_map
    (fun latest_rollforward =>
       Qltb (Qabs (calculated_ending latest_rollforward
                   - Rollforward.ending_arr latest_rollforward)) 100)
    (iloc_last arr_rollforward).

(* ------------------------------------------------------------------ *)
(** ** The consumers in [app.py] *)

Module Kpis.
Record t : Type := mk {
  current_arr : Q;
  active_customers : nat;
  arr_per_customer : fval;
  monthly_growth : fval;
  arr_change : Q;
  customer_change : Z
}.
End Kpis.

(** [arr_summary.iloc[-2]] *)
Definition iloc_second_last {A : Type} (df : list A) : option A :=
  nth_error (rev df) 1.

(** [get_kpis]; [None] is the 500 answer of the [except] branch. *)
Definition get_kpis (arr_summary : list Summary.row) : option Kpis.t :=
  match iloc_last arr_summary with
  | None => None
  | Some latest =>
      let previous :=
        if (1 <? length arr_summary)%nat
        then match iloc_second_last arr_summary with
             | Some p => p
             | None => latest
             end
        else latest in
      Some (Kpis.mk
              (Summary.current_arr latest)
              (Summary.active_customers latest)
              (fdiv (FNum (Summary.current_arr latest))
                    (FNum (inject_Z (Z.of_nat (Summary.active_customers latest)))))
              (if notna (Summary.arr_growth_rate latest)
               then Summary.arr_growth_rate latest
               else FNum 0)
              (Summary.current_arr latest - Summary.current_arr previous)
              (Z.of_nat (Summary.active_customers latest)
               - Z.of_nat (Summary.active_customers previous))%Z)
  end.

Module Seg.
(** An entry of the list returned by [get_segments]. *)
Record row : Type := mk {
  segment_ : segment;
  arr : Q;
  customers : nat;
  percentage : Q
}.
End Seg.

Definition segment_eqb (a b : segment) : bool :=
  match a, b with
  | SMB, SMB | MidMarket, MidMarket
  | Enterprise, Enterprise | Strategic, Strategic => true
  | _, _ => false
  end.

(** The group keys in the order [groupby] emits them for the labels read
    back from the CSV file: sorted as strings. *)
Definition groupby_key_order : list segment :=
  [Enterprise; MidMarket; SMB; Strategic].

Definition in_segment (g : segment) (s : Sub.row) : bool :=
  match Sub.customer_segment s with
  | Some g' => segment_eqb g g'
  | None => false
  end.

Definition count_notna {A : Type} (l : list (option A)) : nat :=
  length (filter (fun c => match c with Some _ => true | None => false end) l).

(** [groupby('customer_segment').agg({'arr_amount': 'sum',
    'customer_id': 'count'}).reset_index()]: one row per label that
    occurs; rows without a label belong to no group. *)
Definition groupby_segment (active_subs : list Sub.row)
  : list (segment * Q * nat) :=
  flat_map
    (fun g =>
       match filter (in_segment g) active_subs with
       | [] => []
       | members =>
           [(g,
             nansum (map (fun s => arr_amount (Sub.base s)) members),
             count_notna (map (fun s => customer_id (Sub.base s)) members))]
       end)
    groupby_key_order.

(** [get_segments] *)
Definition get_segments (subscriptions : list Sub.row) : list Seg.row :=
  let active_subs := filter Sub.is_active subscriptions in
  let segment_data := groupby_segment active_subs in
  let total_arr := Qsum (map (fun '(_, a, _) => a) segment_data) in
  map (fun '(g, a, c) =>
         Seg.mk g a c (if Qltb 0 total_arr then a / total_arr * 100 else 0))
      segment_data.

(** The whole pipeline from parsed rows to summary and bridge. *)
Definition run_pipeline (current_date : date)
  (subscriptions_df : list subscription) (transactions_df : list raw_transaction)
  : option (list Summary.row * list Rollforward.row) :=
  let '(subs2, txns2) := step2_data_cleaning subscriptions_df transactions_df in
  let '(subs3, txns3) := step3_feature_engineering current_date subs2 txns2 in
  step4_arr_calculations subs3 txns3.

(* ------------------------------------------------------------------ *)
(** ** Worked ledgers *)

Definition d (y m dd : Z) : date := mkdate y m dd.

(** Two subscriptions and three transactions over January and February
    2024; January's transactions overstate what the subscriptions show. *)
Definition drift_subscriptions : list subscription :=
  [ mksub (Some 1%Z) (Some (d 2024 1 1)) None (Some 1000);
    mksub (Some 2%Z) (Some (d 2024 2 5)) None (Some 120) ].

Definition drift_transactions : list raw_transaction :=
  [ mkraw (Some (d 2024 1 10)) "new" (Some 100);
    mkraw (Some (d 2024 1 20)) "expansion" (Some 100);
    mkraw (Some (d 2024 2 5)) "new" (Some 10) ].

(** A ledger that records a contraction as a negative amount. *)
Definition signed_contraction_transactions : list raw_transaction :=
  [ mkraw (Some (d 2024 1 10)) "contraction" (Some (-50)) ].

(** A ledger with nothing dated February. *)
Definition gap_transactions : list raw_transaction :=
  [ mkraw (Some (d 2024 1 15)) "new" (Some 100);
    mkraw (Some (d 2024 3 10)) "new" (Some 50) ].

(** A subscription carrying a negative amount. *)
Definition negative_subscription : subscription :=
  mksub (Some 7%Z) (Some (d 2024 1 1)) None (Some (-500)).


(** Scenario A of the specification: open-ended from 15 January. *)
Definition scenario_a_subscription : subscription :=
  mksub (Some 1%Z) (Some (d 2024 1 15)) None (Some 1200).

(** Scenario B of the specification: active from 1 January to 1 March. *)
Definition scenario_b_subscription : subscription :=
  mksub (Some 3%Z) (Some (d 2024 1 1)) (Some (d 2024 3 1)) (Some 600).

(** A subscription whose end date is the last day of March 2024. *)
Definition boundary_subscription : subscription :=
  mksub (Some 4%Z) (Some (d 2024 1 1)) (Some (d 2024 3 31)) (Some 600).

Definition run_date : date := d 2024 6 15.

Definition pipeline_summary (run : option (list Summary.row * list Rollforward.row))
  : list Summary.row :=
  match run with Some (summary, _) => summary | None => [] end.

Definition pipeline_chain (run : option (list Summary.row * list Rollforward.row))
  : list Rollforward.row :=
  match run with Some (_, chain) => chain | None => [] end.

Definition drift_summary : list Summary.row :=
  pipeline_summary (run_pipeline run_date drift_subscriptions drift_transactions).

Definition drift_chain : list Rollforward.row :=
  pipeline_chain (run_pipeline run_date drift_subscriptions drift_transactions).



Definition contraction_summary : list Summary.row :=
  pipeline_summary (run_pipeline run_date [] signed_contraction_transactions).

Definition contraction_chain : list Rollforward.row :=
  pipeline_chain (run_pipeline run_date [] signed_contraction_transactions).

(* ------------------------------------------------------------------ *)
(** ** Further consumers of the summary and the bridge *)

(** [df.tail(n)]: the last [n] rows, all of them when there are fewer. *)
Definition tail {A : Type} (n : nat) (df : list A) : list A :=
  skipn (length df - n) df.

(** [df.iloc[-2] if len(df) > 1 else latest] *)
Definition previous_row {A : Type} (df : list A) (latest : A) : A :=
  if (1 <? length df)%nat
  then match iloc_second_last df with
       | Some p => p
       | None => latest
       end
  else latest.

Module Waterfall.
(** The answer of [get_waterfall]. *)
Record t : Type := mk {
  month : month_key;
  starting_arr : Q;
  new_arr : Q;
  expansion_arr : Q;
  contraction_arr : Q;
  churned_arr : Q;
  ending_arr : Q
}.
End Waterfall.

(** [get_waterfall] of [app.py]; [None] is the 500 answer. *)
Definition get_waterfall (arr_rollforward : list Rollforward.row)
  : option Waterfall.t :=
  option_map
    (fun latest =>
       Waterfall.mk (Rollforward.month latest)
                    (Rollforward.starting_arr latest)
                    (Rollforward.new_arr latest)
                    (Rollforward.expansion_arr latest)
                    (Rollforward.contraction_arr latest)
                    (Rollforward.churned_arr latest)
                    (Rollforward.ending_arr latest))
    (iloc_last arr_rollforward).

Module Trend.
(** An entry of the list returned by [get_trend]. *)
Record row : Type := mk {
  month : month_key;
  current_arr : Q;
  arr_growth_rate : fval;
  active_customers : nat
}.
End Trend.

(** [get_trend] of [app.py]: the last twelve months. *)
Definition get_trend (arr_summary : list Summary.row) : list Trend.row :=
  map (fun row =>
         Trend.mk (Summary.month row)
                  (Summary.current_arr row)
                  (if notna (Summary.arr_growth_rate row)
                   then Summary.arr_growth_rate row
                   else FNum 0)
                  (Summary.active_customers row))
      (tail 12 arr_summary).

Module Exec.
(** The dictionary returned by [create_executive_metrics]. *)
Record t : Type := mk {
  current_arr : Q;
  arr_change : Q;
  arr_growth_rate : fval;
  active_customers : nat;
  customer_change : Z;
  arr_per_customer : fval
}.
End Exec.

(** [create_executive_metrics] of [executive_arr_dashboard.py]; [None]
    is the [IndexError] on an empty frame. *)
Definition create_executive_metrics (arr_summary_df : list Summary.row)
  : option Exec.t :=
  match iloc_last arr_summary_df with
  | None => None
  | Some latest =>
      let previous := previous_row arr_summary_df latest in
      let arr_change := Summary.current_arr latest - Summary.current_arr previous in
      let customer_change :=
        (Z.of_nat (Summary.active_customers latest)
         - Z.of_nat (Summary.active_customers previous))%Z in
      Some (Exec.mk (Summary.current_arr latest)
                    arr_change
                    (Summary.arr_growth_rate latest)
                    (Summary.active_customers latest)
                    customer_change
                    (Summary.arr_per_customer latest))
  end.

Module KpiSummary.
(** The dictionary returned by [create_arr_kpi_summary]. *)
Record t : Type := mk {
  current_arr : Q;
  monthly_growth : fval;
  avg_12m_growth : fval;
  customers : nat;
  arr_per_customer : fval
}.
End KpiSummary.

(** [create_arr_kpi_summary] of [executive_arr_dashboard.py]. *)
Definition create_arr_kpi_summary (arr_summary_df : list Summary.row)
  : option KpiSummary.t :=
  match iloc_last arr_summary_df with
  | None => None
  | Some latest =>
      let last_12_months := tail 12 arr_summary_df in
      let avg_growth := fmean (map Summary.arr_growth_rate last_12_months) in
      Some (KpiSummary.mk (Summary.current_arr latest)
                          (Summary.arr_growth_rate latest)
                          avg_growth
                          (Summary.active_customers latest)
                          (Summary.arr_per_customer latest))
  end.

(* ------------------------------------------------------------------ *)
(** ** [validate_dashboard_data] *)

Definition fabs (x : fval) : fval :=
  match x with
  | FNum q => FNum (Qabs q)
  | FNegInf => FPosInf
  | other => other
  end.

(** [round(0)] on a float column. *)
Definition round0 (q : Q) : Q := inject_Z (rint q).

(** The six entries of [all_checks]. *)
Record dashboard_checks : Type := mkchecks {
  arr_match : bool;
  customer_match : bool;
  arr_per_customer_match : bool;
  growth_match : bool;
  waterfall_check : bool;
  segment_match : bool
}.

(** Lines 34-125 of [data_validation_checker.py], on the three frames
    read from the CSV files.  [None] stands for an exception, which the
    caller's [except] branch turns into [False]. *)
Definition dashboard_all_checks (arr_summary : list Summary.row)
  (arr_rollforward : list Rollforward.row) (subscriptions : list Sub.row)
  : option dashboard_checks :=
  match iloc_last arr_summary, iloc_last arr_rollforward with
  | Some latest_arr, Some latest_rollforward =>
      let previous_arr := previous_row arr_summary latest_arr in
      let calculated_arr_per_customer :=
        fdiv (FNum (Summary.current_arr latest_arr))
             (FNum (inject_Z (Z.of_nat (Summary.active_customers latest_arr)))) in
      let arr_change :=
        Summary.current_arr latest_arr - Summary.current_arr previous_arr in
      let growth_rate :=
        fmul (fdiv (FNum arr_change) (FNum (Summary.current_arr previous_arr)))
             (FNum 100) in
      let active_subs := filter Sub.is_active subscriptions in
      let segment_totals :=
        map (fun '(g, a, c) => (g, round0 a, c)) (groupby_segment active_subs) in
      let total_segment_arr := Qsum (map (fun '(_, a, _) => a) segment_totals) in
      Some (mkchecks
              (Qltb (Qabs (Summary.current_arr latest_arr - 1086712)) 100)
              (Z.abs (Z.of_nat (Summary.active_customers latest_arr) - 846) <? 5)%Z
              (fltb (fabs (fsub calculated_arr_per_customer (FNum 1285))) (FNum 50))
              (fltb (fabs (fsub growth_rate (FNum (16 # 10)))) (FNum (1 # 2)))
              (Qltb (Qabs (calculated_ending latest_rollforward
                           - Rollforward.ending_arr latest_rollforward)) 100)
              (Qltb (Qabs (total_segment_arr - Summary.current_arr latest_arr)) 1000))
  | _, _ => None
  end.

(** [validate_dashboard_data] returns [all(all_checks)], and [False]
    from its [except] branches. *)
Definition validate_dashboard_data (arr_summary : list Summary.row)
  (arr_rollforward : list Rollforward.row) (subscriptions : list Sub.row) : bool :=
  match dashboard_all_checks arr_summary arr_rollforward subscriptions with
  | Some c =>
      arr_match c && customer_match c && arr_per_customer_match c
      && growth_match c && waterfall_check c && segment_match c
  | None => false
  end.

(* ------------------------------------------------------------------ *)
(** ** Vocabulary for the statements *)

(** A parsed row that has both its date and its amount. *)
Definition is_complete (r : raw_transaction) : bool :=
  match raw_transaction_date r, raw_amount r with
  | Some _, Some _ => true
  | _, _ => false
  end.

(** The same ledger with the sign of every churn amount reversed. *)
Definition flip_churn_sign (t : transaction) : transaction :=
  if String.eqb (transaction_type t) "churn"
  then mktxn (transaction_date t) (transaction_type t) (- amount t)
  else t.

(** The columns of a row of the grouped frame. *)
Definition seg_arr_of (x : segment * Q * nat) : Q := let '(_, a, _) := x in a.
Definition seg_key_of (x : segment * Q * nat) : segment := let '(g, _, _) := x in g.

(** Hand-written frames on which [validate_dashboard_data] answers True:
    two summary rows, one bridge record and one active subscription. *)
Definition matching_summary : list Summary.row :=
  [ Summary.mk
      (Monthly.mk (mkym 2024 5) (d 2024 5 31) 0 0 0 0 0 1069600 840 (FNum (1069600 / 840)))
      FNaN FNaN FNaN;
    Summary.mk
      (Monthly.mk (mkym 2024 6) (d 2024 6 30) 17112 0 0 0 17112 1086712 846
                  (FNum (1086712 / 846)))
      (FNum 1069600) (FNum 17112) (FNum (16 # 10)) ].

Definition matching_rollforward : list Rollforward.row :=
  [ Rollforward.mk (mkym 2024 6) 1069600 17112 0 0 0 1086712 17112 (FNum (16 # 10)) ].

Definition matching_subscriptions : list Sub.row :=
  [ Sub.mk (mksub (Some 1%Z) (Some (d 2023 1 1)) None (Some 1086712))
           true (Some Strategic) ].

(** The change of the subscription snapshot over the month of a bridge
    record. *)
Definition snapshot_change (r : Rollforward.row) : Q :=
  Rollforward.ending_arr r - Rollforward.starting_arr r.
(* ------------------------------------------------------------------ *)
(** ** Facts about the calendar *)

Local Open Scope Z_scope.

Lemma date_ltb_lt a b : date_ltb a b = true <-> date_lt a b.
Proof.
  unfold date_ltb, date_lt.
  rewrite !orb_true_iff, !andb_true_iff, !orb_true_iff, !andb_true_iff.
  rewrite !Z.ltb_lt, !Z.eqb_eq. tauto.
Qed.

Lemma date_leb_le a b : date_leb a b = true <-> date_le a b.
Proof.
  unfold date_leb, date_le. rewrite negb_true_iff.
  destruct (date_ltb b a) eqn:E.
  - apply date_ltb_lt in E. unfold date_lt in E. split; [discriminate | lia].
  - assert (~ date_lt b a) as N by (rewrite <- date_ltb_lt; congruence).
    unfold date_lt in N. split; [lia | reflexivity].
Qed.

Lemma date_lt_irrefl a : ~ date_lt a a.
Proof. unfold date_lt. lia. Qed.

Lemma date_le_lt_trans a b c : date_le a b -> date_lt b c -> date_lt a c.
Proof. unfold date_le, date_lt. lia. Qed.

Lemma mkdate_ext y y' m m' d d' :
  y = y' -> m = m' -> d = d' -> mkdate y m d = mkdate y' m' d'.
Proof. intros; subst; reflexivity. Qed.

Lemma days_in_month_bounds y m : 28 <= days_in_month y m <= 31.
Proof.
  unfold days_in_month.
  destruct (m =? 2); [destruct (is_leap y); lia|].
  destruct ((m =? 4) || (m =? 6) || (m =? 9) || (m =? 11)); lia.
Qed.

Lemma next_day_in y m d :
  d < days_in_month y m -> next_day (mkdate y m d) = mkdate y m (d + 1).
Proof.
  intro H. unfold next_day; cbn [year month day].
  destruct (Z.ltb_spec d (days_in_month y m)); [reflexivity | lia].
Qed.

Lemma next_day_roll y m d :
  days_in_month y m <= d ->
  next_day (mkdate y m d)
  = if m <? 12 then mkdate y (m + 1) 1 else mkdate (y + 1) 1 1.
Proof.
  intro H. unfold next_day; cbn [year month day].
  destruct (Z.ltb_spec d (days_in_month y m)); [lia | reflexivity].
Qed.

Lemma prev_day_in y m d :
  1 < d -> prev_day (mkdate y m d) = mkdate y m (d - 1).
Proof.
  intro H. unfold prev_day; cbn [year month day].
  destruct (Z.ltb_spec 1 d); [reflexivity | lia].
Qed.

Lemma prev_day_roll y m :
  prev_day (mkdate y m 1)
  = if 1 <? m then mkdate y (m - 1) (days_in_month y (m - 1))
    else mkdate (y - 1) 12 31.
Proof. reflexivity. Qed.

(** Walking back [d] days from day [d] of a month reaches the last day
    of the month before. *)
Lemma sub_days_own_day y m d :
  1 <= d -> sub_days (mkdate y m d) (Z.to_nat d) = prev_day (mkdate y m 1).
Proof.
  intro H.
  assert (Hn : exists n, Z.to_nat d = S n /\ d = Z.of_nat (S n)).
  { exists (Z.to_nat (d - 1)). split; lia. }
  destruct Hn as [n [Hn ->]]. rewrite Hn.
  clear Hn H. revert y m.
  induction n as [|n IH]; intros y m; [reflexivity|].
  change (sub_days ?x (S (S n))) with (sub_days (prev_day x) (S n)).
  rewrite prev_day_in by lia.
  replace (Z.of_nat (S (S n)) - 1) with (Z.of_nat (S n)) by lia.
  apply IH.
Qed.

(** Going four days past day 28 always lands in the first four days of
    the following month. *)
Lemma overshoot_next_month y m :
  exists d, 1 <= d <= 4 /\
    add_days (mkdate y m 28) 4
    = if m <? 12 then mkdate y (m + 1) d else mkdate (y + 1) 1 d.
Proof.
  pose proof (days_in_month_bounds y m) as Hb.
  pose proof (days_in_month_bounds y (m + 1)) as Hn.
  pose proof (days_in_month_bounds (y + 1) 1) as Hj.
  assert (Hc : days_in_month y m = 28 \/ days_in_month y m = 29 \/
               days_in_month y m = 30 \/ days_in_month y m = 31) by lia.
  cbn [add_days].
  destruct Hc as [Hc|[Hc|[Hc|Hc]]].
  - exists 4. split; [lia|].
    rewrite (next_day_roll y m 28) by lia.
    destruct (m <? 12); repeat (rewrite next_day_in by lia); reflexivity.
  - exists 3. split; [lia|].
    rewrite (next_day_in y m 28) by lia.
    rewrite (next_day_roll y m) by lia.
    destruct (m <? 12); repeat (rewrite next_day_in by lia); reflexivity.
  - exists 2. split; [lia|].
    do 2 rewrite (next_day_in y m) by lia.
    rewrite (next_day_roll y m) by lia.
    destruct (m <? 12); repeat (rewrite next_day_in by lia); reflexivity.
  - exists 1. split; [lia|].
    do 3 rewrite (next_day_in y m) by lia.
    rewrite (next_day_roll y m) by lia.
    destruct (m <? 12); reflexivity.
Qed.

(** The "day 28 plus four days, minus its own day number" idiom lands on
    the last day of the month, whatever the month length. *)
Lemma month_end_is_last_day y m :
  1 <= m <= 12 -> month_end (mkym y m) = last_day_of_month (mkym y m).
Proof.
  intro Hm. unfold month_end, last_day_of_month, strptime_ym, replace_day.
  cbn [ym_year ym_month year month day].
  destruct (overshoot_next_month y m) as [d [Hd ->]].
  destruct (Z.ltb_spec m 12) as [Hlt|Hge]; cbn [day].
  - rewrite sub_days_own_day by lia. rewrite prev_day_roll.
    destruct (Z.ltb_spec 1 (m + 1)); [|lia].
    replace (m + 1 - 1) with m by lia. reflexivity.
  - rewrite sub_days_own_day by lia. rewrite prev_day_roll.
    assert (m = 12) by lia; subst m.
    cbn. apply mkdate_ext; lia.
Qed.

(** Where the month end is computed, it is the date of [month_end]. *)
Lemma month_end_checked_Some k dt :
  month_end_checked k = Some dt ->
  dt = month_end k /\ dt = last_day_of_month k.
Proof.
  unfold month_end_checked, strptime_accepts.
  destruct (in_datetime_range (strptime_ym k)); [|discriminate].
  destruct (Z.leb_spec 1 (ym_month k)); [|discriminate].
  destruct (Z.leb_spec (ym_month k) 12); [|discriminate].
  cbn [andb].
  destruct (in_datetime_range _); [|discriminate].
  intros [= <-]. split; [reflexivity|].
  destruct k as [y m]. apply (month_end_is_last_day y m). cbn in *. lia.
Qed.

(** The month end cannot be computed for a key that [strptime] rejects
    and for December 9999, and for no other month. *)
Lemma month_end_checked_None_iff k :
  month_end_checked k = None
  <-> ~ (1 <= ym_year k <= 9999 /\ 1 <= ym_month k <= 12)
      \/ (ym_year k = 9999 /\ ym_month k = 12).
Proof.
  destruct k as [y m].
  unfold month_end_checked, strptime_accepts, in_datetime_range, strptime_ym,
    replace_day.
  cbn [ym_year ym_month year month day].
  destruct (Z.leb_spec 1 y); cbn [andb]; [|split; [intros _; left; lia | reflexivity]].
  destruct (Z.leb_spec y 9999); cbn [andb];
    [|split; [intros _; left; lia | reflexivity]].
  destruct (Z.leb_spec 1 m); cbn [andb]; [|split; [intros _; left; lia | reflexivity]].
  destruct (Z.leb_spec m 12); cbn [andb];
    [|split; [intros _; left; lia | reflexivity]].
  destruct (overshoot_next_month y m) as [d [Hd ->]].
  destruct (Z.ltb_spec m 12); cbn [year].
  - destruct (Z.leb_spec 1 y); [|lia]. destruct (Z.leb_spec y 9999); [|lia].
    cbn [andb]. split; [discriminate | intros [Hn|[_ Hm]]; lia].
  - destruct (Z.leb_spec 1 (y + 1)); [|lia]. cbn [andb].
    destruct (Z.leb_spec (y + 1) 9999).
    + split; [discriminate | intros [Hn|[Hy _]]; lia].
    + split; [intros _; right; lia | reflexivity].
Qed.

Local Open Scope Q_scope.

(* ------------------------------------------------------------------ *)
(** ** Facts about numbers and frames *)

Lemma Qltb_lt x y : Qltb x y = true <-> x < y.
Proof.
  unfold Qltb. rewrite negb_true_iff.
  destruct (Qle_bool y x) eqn:E.
  - apply Qle_bool_iff in E. split; [discriminate | intro; lra].
  - split; [intros _ | reflexivity].
    apply Qnot_le_lt. intro H. apply Qle_bool_iff in H. congruence.
Qed.

Lemma Qltb_ge x y : Qltb x y = false <-> y <= x.
Proof.
  destruct (Qltb x y) eqn:E.
  - apply Qltb_lt in E. split; [discriminate | intro; lra].
  - split; [intros _ | reflexivity].
    apply Qnot_lt_le. intro H. apply Qltb_lt in H. congruence.
Qed.

Lemma Qeq_bool_false x y : Qeq_bool x y = false <-> ~ x == y.
Proof.
  split.
  - intros E H. apply Qeq_bool_iff in H. congruence.
  - intro H. destruct (Qeq_bool x y) eqn:E; [|reflexivity].
    apply Qeq_bool_iff in E. contradiction.
Qed.

Lemma nth_error_iterrows {A : Type} (df : list A) i x :
  nth_error (iterrows df) i = Some x <->
  exists row, nth_error df i = Some row /\ x = (i, row).
Proof.
  unfold iterrows.
  assert (G : forall (l : list A) start j p,
             nth_error (combine (seq start (length l)) l) j = Some p <->
             exists row, nth_error l j = Some row /\ p = ((start + j)%nat, row)).
  { induction l as [|a l IH]; intros start j p.
    - destruct j; cbn; split; try discriminate;
        intros [row [H _]]; discriminate.
    - destruct j; cbn.
      + rewrite Nat.add_0_r. split.
        * intros [= <-]. eauto.
        * intros [row [[= <-] ->]]. reflexivity.
      + rewrite IH. replace (S start + j)%nat with (start + S j)%nat by lia.
        reflexivity. }
  apply (G df 0%nat i x).
Qed.

Lemma nth_error_shift_from_S c l i :
  nth_error (shift_from c l) (S i) =
  match nth_error l (S i) with
  | Some _ => option_map FNum (nth_error l i)
  | None => None
  end.
Proof.
  revert c i. induction l as [|a l IH]; intros c i; [reflexivity|].
  cbn [shift_from nth_error]. destruct l as [|b l]; [destruct i; reflexivity|].
  destruct i as [|i]; [reflexivity|].
  rewrite IH. reflexivity.
Qed.

Lemma nth_error_combine {A B : Type} (l : list A) (l' : list B) i :
  nth_error (combine l l') i =
  match nth_error l i, nth_error l' i with
  | Some a, Some b => Some (a, b)
  | _, _ => None
  end.
Proof.
  revert l' i. induction l as [|a l IH]; intros l' i.
  - destruct i; reflexivity.
  - destruct l' as [|b l'].
    + destruct i; cbn; [reflexivity|]. destruct (nth_error l i); reflexivity.
    + destruct i; cbn; [reflexivity | apply IH].
Qed.

(** The growth columns leave the monthly dictionaries in place. *)
Lemma growth_columns_data rows :
  map Summary.data (growth_columns rows) = rows.
Proof.
  unfold growth_columns, shift1. generalize FNaN.
  induction rows as [|r rows IH]; intro c; [reflexivity|].
  cbn. f_equal. apply IH.
Qed.

Lemma growth_columns_length rows :
  length (growth_columns rows) = length rows.
Proof. rewrite <- (growth_columns_data rows) at 2. now rewrite length_map. Qed.


Lemma rollforward_data_length df :
  length (rollforward_data df) = length df.
Proof.
  unfold rollforward_data, iterrows.
  rewrite length_map, length_combine, length_seq. lia.
Qed.

(** What the loop of lines 212-226 stores at position [i]. *)
Lemma nth_error_rollforward_data df i r :
  nth_error (rollforward_data df) i = Some r ->
  exists row,
    nth_error df i = Some row
    /\ Rollforward.month r = Summary.month row
    /\ Rollforward.starting_arr r =
         (if (i =? 0)%nat then 0
          else nth (i - 1) (map Summary.current_arr df) 0)
    /\ Rollforward.new_arr r = Monthly.new_arr (Summary.data row)
    /\ Rollforward.expansion_arr r = Monthly.expansion_arr (Summary.data row)
    /\ Rollforward.contraction_arr r = - Monthly.contraction_arr (Summary.data row)
    /\ Rollforward.churned_arr r = - Monthly.churned_arr (Summary.data row)
    /\ Rollforward.ending_arr r = Summary.current_arr row
    /\ Rollforward.net_change r = Monthly.net_new_arr (Summary.data row)
    /\ Rollforward.growth_rate r = Summary.arr_growth_rate row.
Proof.
  unfold rollforward_data. rewrite nth_error_map.
  destruct (nth_error (iterrows df) i) as [[j row]|] eqn:E; [|discriminate].
  apply nth_error_iterrows in E. destruct E as [row' [Hrow [= -> ->]]].
  cbn. intros [= <-]. exists row'. cbn. repeat split; assumption.
Qed.

(** Every row of the monthly table is the loop body run on its month. *)
Lemma monthly_arr_data_row subs txns row :
  In row (monthly_arr_data subs txns) ->
  row = monthly_row subs txns (Monthly.month row)
  /\ In (Monthly.month row) (all_months txns).
Proof.
  unfold monthly_arr_data. rewrite in_map_iff. intros [k [<- Hk]].
  split; [reflexivity | exact Hk].
Qed.

Lemma step4_inv subs txns summary chain :
  step4_arr_calculations subs txns = Some (summary, chain) ->
  summary = growth_columns (monthly_arr_data subs txns)
  /\ chain = rollforward_data summary
  /\ (1 <= length summary)%nat.
Proof.
  unfold step4_arr_calculations.
  destruct (existsb month_end_raises (all_months txns)); [discriminate|].
  destruct (monthly_arr_data subs txns) as [|r rows] eqn:E; [discriminate|].
  intros [= <- <-]. repeat split.
  rewrite growth_columns_length. cbn. lia.
Qed.

Lemma step4_months_in_range subs txns result :
  step4_arr_calculations subs txns = Some result ->
  existsb month_end_raises (all_months txns) = false.
Proof.
  unfold step4_arr_calculations.
  destruct (existsb month_end_raises (all_months txns));
    [discriminate | reflexivity].
Qed.

Lemma summary_row_data subs txns summary chain row :
  step4_arr_calculations subs txns = Some (summary, chain) ->
  In row summary ->
  In (Summary.data row) (monthly_arr_data subs txns).
Proof.
  intros H Hin. apply step4_inv in H. destruct H as [-> _].
  rewrite <- (growth_columns_data (monthly_arr_data subs txns)).
  apply in_map. exact Hin.
Qed.

(* ------------------------------------------------------------------ *)
(** ** Facts about month keys, [unique] and [sorted] *)

Lemma ym_eqb_eq a b : ym_eqb a b = true <-> a = b.
Proof.
  unfold ym_eqb. rewrite andb_true_iff, !Z.eqb_eq.
  destruct a, b; cbn. split; [intros [-> ->]; reflexivity | intros [= -> ->]; auto].
Qed.

Lemma ym_eqb_refl a : ym_eqb a a = true.
Proof. now apply ym_eqb_eq. Qed.

Lemma ym_ltb_lt a b : ym_ltb a b = true <-> ym_lt a b.
Proof.
  unfold ym_ltb, ym_lt.
  rewrite orb_true_iff, andb_true_iff, !Z.ltb_lt, Z.eqb_eq. tauto.
Qed.

Lemma ym_lt_trans a b c : ym_lt a b -> ym_lt b c -> ym_lt a c.
Proof. unfold ym_lt. lia. Qed.

Lemma ym_lt_irrefl a : ~ ym_lt a a.
Proof. unfold ym_lt. lia. Qed.

Lemma ym_leb_true a b : ym_leb a b = true -> a <> b -> ym_lt a b.
Proof.
  unfold ym_leb. rewrite negb_true_iff. intros H Hne.
  assert (N : ~ ym_lt b a) by (rewrite <- ym_ltb_lt; congruence).
  destruct a as [ya ma], b as [yb mb]. unfold ym_lt in *; cbn in *.
  assert (~ (ya = yb /\ ma = mb)) by (intros [-> ->]; now apply Hne).
  lia.
Qed.

Lemma ym_leb_false a b : ym_leb a b = false -> ym_lt b a.
Proof.
  unfold ym_leb. rewrite negb_false_iff. apply ym_ltb_lt.
Qed.

Lemma In_unique k l : In k (unique l) <-> In k l.
Proof.
  induction l as [|x l IH]; [reflexivity|].
  cbn [unique In]. rewrite filter_In, IH, negb_true_iff.
  destruct (ym_eqb x k) eqn:E.
  - apply ym_eqb_eq in E. subst. split; auto.
  - split; [intros [H|[H _]]; auto | intros [H|H]; auto].
Qed.

Lemma NoDup_unique l : NoDup (unique l).
Proof.
  induction l as [|x l IH]; cbn [unique]; constructor.
  - rewrite filter_In, ym_eqb_refl. intros [_ H]. discriminate.
  - apply NoDup_filter. exact IH.
Qed.

Lemma In_insert_sorted k x l : In k (insert_sorted x l) <-> x = k \/ In k l.
Proof.
  induction l as [|a l IH]; cbn [insert_sorted]; [reflexivity|].
  destruct (ym_leb x a); cbn [In]; [reflexivity|]. rewrite IH. tauto.
Qed.

Lemma In_sorted k l : In k (sorted l) <-> In k l.
Proof.
  unfold sorted. induction l as [|a l IH]; cbn [fold_right In]; [reflexivity|].
  rewrite In_insert_sorted, IH. reflexivity.
Qed.

Lemma insert_sorted_strict x l :
  StronglySorted ym_lt l -> ~ In x l -> StronglySorted ym_lt (insert_sorted x l).
Proof.
  induction l as [|a l IH]; intros Hs Hn; cbn [insert_sorted].
  - repeat constructor.
  - inversion Hs as [|? ? Hs' Hall]; subst.
    destruct (ym_leb x a) eqn:E.
    + assert (Hxa : ym_lt x a).
      { apply ym_leb_true; [exact E|]. intros ->. apply Hn. now left. }
      constructor; [exact Hs|]. constructor; [exact Hxa|].
      rewrite Forall_forall in *. intros y Hy.
      eapply ym_lt_trans; [exact Hxa | auto].
    + apply ym_leb_false in E.
      constructor.
      * apply IH; [exact Hs'|]. intro H. apply Hn. now right.
      * rewrite Forall_forall in *. intros y Hy.
        apply In_insert_sorted in Hy. destruct Hy as [<-|Hy]; auto.
Qed.

Lemma sorted_strict l : NoDup l -> StronglySorted ym_lt (sorted l).
Proof.
  unfold sorted. induction 1 as [|x l Hn Hd IH]; cbn [fold_right].
  - constructor.
  - apply insert_sorted_strict; [exact IH|].
    change (fold_right insert_sorted [] l) with (sorted l).
    rewrite In_sorted. exact Hn.
Qed.

Lemma StronglySorted_ym_lt_NoDup l : StronglySorted ym_lt l -> NoDup l.
Proof.
  induction 1 as [|a l Hs IH Hall]; constructor; [|exact IH].
  intro Hin. rewrite Forall_forall in Hall.
  exact (ym_lt_irrefl a (Hall a Hin)).
Qed.

(** The months of the loop are the months in which a transaction falls. *)
Lemma In_all_months txns k :
  In k (all_months txns) <-> exists t, In t txns /\ Txn.year_month t = k.
Proof.
  unfold all_months. rewrite In_sorted, In_unique, in_map_iff.
  split; intros [t [H1 H2]]; exists t; auto.
Qed.

Lemma all_months_strict txns : StronglySorted ym_lt (all_months txns).
Proof. apply sorted_strict, NoDup_unique. Qed.

Lemma monthly_arr_data_months subs txns :
  map Monthly.month (monthly_arr_data subs txns) = all_months txns.
Proof.
  unfold monthly_arr_data. rewrite map_map. cbn. apply map_id.
Qed.

Lemma type_sum_absent ty rows :
  (forall t, In t rows -> transaction_type (Txn.base t) <> ty) ->
  type_sum ty rows = 0.
Proof.
  intro H. unfold type_sum.
  replace (filter _ rows) with (@nil Txn.row); [reflexivity|].
  symmetry. induction rows as [|t rows IH]; [reflexivity|].
  cbn [filter]. destruct (String.eqb_spec (transaction_type (Txn.base t)) ty) as [E|E].
  - exfalso. apply (H t); [now left | exact E].
  - apply IH. intros t' Ht'. apply H. now right.
Qed.

(* ------------------------------------------------------------------ *)
(** ** The rollforward chain *)

(** The first bridge record starts at zero. *)
Lemma chain_first_record subs txns summary chain :
  step4_arr_calculations subs txns = Some (summary, chain) ->
  exists first, nth_error chain 0 = Some first
                /\ Rollforward.starting_arr first = 0.
Proof.
  intro H. pose proof (step4_inv _ _ _ _ H) as [Hs [Hc Hlen]].
  assert (Hl : length chain = length summary)
    by (rewrite Hc; apply rollforward_data_length).
  destruct chain as [|first rest] eqn:Ec; [cbn in Hl; lia|].
  exists first. split; [reflexivity|].
  assert (Hn : nth_error (rollforward_data summary) 0 = Some first)
    by (rewrite <- Hc; reflexivity).
  apply nth_error_rollforward_data in Hn.
  destruct Hn as [row [_ [_ [Hst _]]]]. exact Hst.
Qed.


(** C1.  In every chain [step4_arr_calculations] builds there is at
    least one record; the first record starts at 0; every later record
    starts at the ending ARR of the record before it; and the ending ARR
    of each record is the point-in-time ARR of its month, the sum of
    [arr_amount] over the subscriptions active at that month's end, with
    no use of the bridge components. *)
Theorem rollforward_chain_links subs txns summary chain :
  step4_arr_calculations subs txns = Some (summary, chain) ->
  (1 <= length chain)%nat
  /\ (exists first, nth_error chain 0 = Some first
                    /\ Rollforward.starting_arr first = 0)
  /\ (forall i before r,
        nth_error chain i = Some before ->
        nth_error chain (S i) = Some r ->
        Rollforward.starting_arr r = Rollforward.ending_arr before)
  /\ (forall r, In r chain ->
        Rollforward.ending_arr r
        = month_arr subs (month_end (Rollforward.month r))).
Proof.
  intro H. pose proof (step4_inv _ _ _ _ H) as [Hs [Hc Hlen]].
  assert (Hl : length chain = length summary)
    by (rewrite Hc; apply rollforward_data_length).
  split; [lia|]. split; [|split].
  - exact (chain_first_record _ _ _ _ H).
  - intros i before r Hb Hr. rewrite Hc in Hb, Hr.
    apply nth_error_rollforward_data in Hb, Hr.
    destruct Hb as [rowb [Hrowb [_ [_ [_ [_ [_ [_ [Hend _]]]]]]]]].
    destruct Hr as [rowr [_ [_ [Hst _]]]].
    rewrite Hst, Hend. cbn [Nat.eqb]. rewrite Nat.sub_succ, Nat.sub_0_r.
    apply nth_error_nth. rewrite nth_error_map, Hrowb. reflexivity.
  - intros r Hin. apply In_nth_error in Hin. destruct Hin as [i Hi].
    rewrite Hc in Hi. apply nth_error_rollforward_data in Hi.
    destruct Hi as [row [Hrow [Hm [_ [_ [_ [_ [_ [Hend _]]]]]]]]].
    rewrite Hend, Hm. apply nth_error_In in Hrow.
    pose proof (summary_row_data _ _ _ _ _ H Hrow) as Hd.
    apply monthly_arr_data_row in Hd. destruct Hd as [Hd _].
    unfold Summary.current_arr, Summary.month. rewrite Hd at 1. reflexivity.
Qed.

Lemma rollforward_chain_links_witness :
  let subs := map (step3_subscription run_date) drift_subscriptions in
  let txns := map step3_transaction (dropna drift_transactions) in
  step4_arr_calculations subs txns = Some (drift_summary, drift_chain)
  /\ (1 <= length drift_chain)%nat
  /\ (exists first, nth_error drift_chain 0 = Some first
                    /\ Rollforward.starting_arr first = 0)
  /\ (forall i before r,
        nth_error drift_chain i = Some before ->
        nth_error drift_chain (S i) = Some r ->
        Rollforward.starting_arr r = Rollforward.ending_arr before)
  /\ (forall r, In r drift_chain ->
        Rollforward.ending_arr r
        = month_arr subs (month_end (Rollforward.month r))).
Proof.
  intros subs txns. split; [reflexivity|].
  apply (rollforward_chain_links subs txns drift_summary drift_chain).
  reflexivity.
Defined.

(** C5 as stated fails: on the drift ledger the January record carries
    net_change 2400 while ending_arr - starting_arr is 1000. *)
Lemma net_change_is_not_ending_minus_starting :
  exists summary chain r,
    run_pipeline run_date drift_subscriptions drift_transactions
    = Some (summary, chain)
    /\ nth_error chain 0 = Some r
    /\ Rollforward.net_change r == 2400
    /\ Rollforward.ending_arr r - Rollforward.starting_arr r == 1000
    /\ ~ Rollforward.net_change r
         == Rollforward.ending_arr r - Rollforward.starting_arr r.
Proof.
  do 3 eexists. split; [vm_compute; reflexivity|].
  split; [reflexivity|].
  split; [vm_compute; reflexivity|].
  split; [vm_compute; reflexivity|].
  intro H. vm_compute in H. discriminate H.
Qed.

(** C5, amended.  The net_change of every bridge record is the net of
    the month's transaction components, that is the sum of the record's
    own new_arr, expansion_arr, contraction_arr and churned_arr. *)
Theorem net_change_is_component_sum subs txns summary chain r :
  step4_arr_calculations subs txns = Some (summary, chain) ->
  In r chain ->
  Rollforward.net_change r
  = Rollforward.new_arr r + Rollforward.expansion_arr r
    + Rollforward.contraction_arr r + Rollforward.churned_arr r.
Proof.
  intros H Hin. pose proof (step4_inv _ _ _ _ H) as [Hs [Hc _]].
  apply In_nth_error in Hin. destruct Hin as [i Hi].
  rewrite Hc in Hi. apply nth_error_rollforward_data in Hi.
  destruct Hi as [row [Hrow [_ [_ [Hn [He [Hco [Hch [_ [Hnet _]]]]]]]]]].
  rewrite Hnet, Hn, He, Hco, Hch.
  apply nth_error_In in Hrow.
  pose proof (summary_row_data _ _ _ _ _ H Hrow) as Hd.
  apply monthly_arr_data_row in Hd. destruct Hd as [Hd _].
  rewrite Hd. reflexivity.
Qed.

Lemma net_change_is_component_sum_witness :
  let subs := map (step3_subscription run_date) drift_subscriptions in
  let txns := map step3_transaction (dropna drift_transactions) in
  let r := Rollforward.mk (mkym 2024 1) 0 1200 1200 (- 0) (- 0) 1000 2400 FNaN in
  step4_arr_calculations subs txns = Some (drift_summary, drift_chain)
  /\ In r drift_chain
  /\ Rollforward.net_change r
     = Rollforward.new_arr r + Rollforward.expansion_arr r
       + Rollforward.contraction_arr r + Rollforward.churned_arr r.
Proof.
  intros subs txns r.
  assert (H : step4_arr_calculations subs txns = Some (drift_summary, drift_chain))
    by (vm_compute; reflexivity).
  assert (Hin : In r drift_chain).
  { vm_compute. left. reflexivity. }
  split; [exact H|]. split; [exact Hin|].
  exact (net_change_is_component_sum subs txns drift_summary drift_chain r H Hin).
Defined.

(* ------------------------------------------------------------------ *)
(** ** Activity at a month end *)

Lemma active_on_iff s as_of :
  active_on s as_of = true <->
  (exists sd, start_date s = Some sd /\ date_le sd as_of)
  /\ (end_date s = None
      \/ exists ed, end_date s = Some ed /\ date_lt as_of ed).
Proof.
  unfold active_on. rewrite andb_true_iff.
  destruct (start_date s) as [sd|], (end_date s) as [ed|].
  - rewrite date_leb_le, date_ltb_lt. split.
    + intros [H1 H2]. split; [eauto | right; eauto].
    + intros [[sd' [[= <-] H1]] [H2|[ed' [[= <-] H2]]]]; [discriminate | auto].
  - rewrite date_leb_le. split.
    + intros [H1 _]. split; [eauto | now left].
    + intros [[sd' [[= <-] H1]] _]. auto.
  - split; [intros [H _]; discriminate | intros [[sd' [H _]] _]; discriminate].
  - split; [intros [H _]; discriminate | intros [[sd' [H _]] _]; discriminate].
Qed.

Lemma active_on_end_date s as_of :
  end_date s = Some as_of -> active_on s as_of = false.
Proof.
  intro H. destruct (active_on s as_of) eqn:E; [|reflexivity].
  apply active_on_iff in E. destruct E as [_ [E|[ed [E Hlt]]]].
  - congruence.
  - rewrite H in E. injection E as <-. now apply date_lt_irrefl in Hlt.
Qed.

Lemma active_subs_month_drop now before s after as_of :
  active_on s as_of = false ->
  active_subs_month (map (step3_subscription now) (before ++ s :: after)) as_of
  = active_subs_month (map (step3_subscription now) (before ++ after)) as_of.
Proof.
  intro H. unfold active_subs_month.
  rewrite !map_app, !filter_app. cbn [map filter step3_subscription Sub.base].
  rewrite H. reflexivity.
Qed.

Lemma active_subs_month_In subs x as_of :
  In x (active_subs_month subs as_of)
  <-> In x subs /\ active_on (Sub.base x) as_of = true.
Proof. unfold active_subs_month. apply filter_In. Qed.

(** A subscription that passes the test is selected at its own place. *)
Lemma active_subs_month_keep now before s after as_of :
  active_on s as_of = true ->
  active_subs_month (map (step3_subscription now) (before ++ s :: after)) as_of
  = active_subs_month (map (step3_subscription now) before) as_of
    ++ step3_subscription now s
       :: active_subs_month (map (step3_subscription now) after) as_of.
Proof.
  intro H. unfold active_subs_month.
  rewrite map_app, filter_app. cbn [map filter step3_subscription Sub.base].
  rewrite H. reflexivity.
Qed.

Lemma active_subs_month_app l1 l2 as_of :
  active_subs_month (l1 ++ l2) as_of
  = active_subs_month l1 as_of ++ active_subs_month l2 as_of.
Proof. unfold active_subs_month. apply filter_app. Qed.

(** On a successful run the month end of every row was computed. *)
Lemma step4_month_end_checked subs txns summary chain row :
  step4_arr_calculations subs txns = Some (summary, chain) ->
  In row summary ->
  month_end_checked (Summary.month row) = Some (month_end (Summary.month row)).
Proof.
  intros H Hin.
  pose proof (summary_row_data _ _ _ _ _ H Hin) as Hd.
  apply monthly_arr_data_row in Hd. destruct Hd as [_ Hk].
  pose proof (step4_months_in_range _ _ _ H) as Hr.
  destruct (month_end_checked (Summary.month row)) as [dt|] eqn:E.
  - apply month_end_checked_Some in E. destruct E as [-> _]. reflexivity.
  - exfalso.
    assert (Ht : existsb month_end_raises (all_months txns) = true).
    { apply existsb_exists. exists (Summary.month row). split; [exact Hk|].
      unfold month_end_raises. rewrite E. reflexivity. }
    congruence.
Qed.

(** C3.  The date at which the loop of [step4_arr_calculations] queries
    a month is the last calendar day of that month; a subscription is
    selected at that date exactly when its start date is on or before
    it and its end date is missing or strictly after it; a subscription
    whose end date is that very day is not selected, so the active set,
    the customer count and the point-in-time ARR of the month are what
    they would be without it.  Every monthly row stores these figures:
    its customer count is the number of the subscriptions that pass the
    test and its point-in-time ARR is the sum of their amounts, so a
    subscription that passes the test is in the active set, raises the
    count by one and has its amount among the summed cells, and one
    that does not pass is in neither. *)
Theorem active_at_month_end (s : subscription) (k : month_key) :
  (1 <= ym_month k <= 12)%Z ->
  let as_of := month_end k in
  as_of = last_day_of_month k
  /\ (active_on s as_of = true <->
        (exists sd, start_date s = Some sd /\ date_le sd as_of)
        /\ (end_date s = None
            \/ exists ed, end_date s = Some ed /\ date_lt as_of ed))
  /\ (end_date s = Some as_of ->
        active_on s as_of = false
        /\ forall now before after,
             let with_s := map (step3_subscription now) (before ++ s :: after) in
             let without := map (step3_subscription now) (before ++ after) in
             active_subs_month with_s as_of = active_subs_month without as_of
             /\ month_arr with_s as_of = month_arr without as_of)
  /\ (forall subs txns row,
        In row (monthly_arr_data subs txns) ->
        Monthly.month row = k ->
        Monthly.month_date row = as_of
        /\ Monthly.current_arr row = month_arr subs as_of
        /\ Monthly.active_customers row = length (active_subs_month subs as_of))
  /\ (forall subs x,
        In x (active_subs_month subs as_of)
        <-> In x subs
            /\ (exists sd, start_date (Sub.base x) = Some sd /\ date_le sd as_of)
            /\ (end_date (Sub.base x) = None
                \/ exists ed, end_date (Sub.base x) = Some ed /\ date_lt as_of ed))
  /\ (forall subs,
        active_subs_month subs as_of
        = filter (fun x => active_on (Sub.base x) as_of) subs
        /\ month_arr subs as_of
           = nansum (map (fun x => arr_amount (Sub.base x))
                         (filter (fun x => active_on (Sub.base x) as_of) subs)))
  /\ (forall now before after,
        let x := step3_subscription now s in
        let pre := active_subs_month (map (step3_subscription now) before) as_of in
        let post := active_subs_month (map (step3_subscription now) after) as_of in
        let with_s := map (step3_subscription now) (before ++ s :: after) in
        (active_on s as_of = true ->
           active_subs_month with_s as_of = pre ++ x :: post
           /\ length (active_subs_month with_s as_of)
              = S (length (pre ++ post))
           /\ month_arr with_s as_of
              = nansum (map (fun y => arr_amount (Sub.base y)) pre
                        ++ arr_amount s
                           :: map (fun y => arr_amount (Sub.base y)) post))
        /\ (active_on s as_of = false ->
              active_subs_month with_s as_of = pre ++ post))
  /\ (forall now a,
        arr_amount s = Some a ->
        (active_on s as_of = true ->
           month_arr [step3_subscription now s] as_of == a)
        /\ (active_on s as_of = false ->
              month_arr [step3_subscription now s] as_of == 0))
  /\ (forall subs txns summary chain row,
        step4_arr_calculations subs txns = Some (summary, chain) ->
        In row summary ->
        Summary.month row = k ->
        month_end_checked k = Some as_of
        /\ Summary.current_arr row
           = nansum (map (fun x => arr_amount (Sub.base x))
                         (filter (fun x => active_on (Sub.base x) as_of) subs))
        /\ Summary.active_customers row
           = length (filter (fun x => active_on (Sub.base x) as_of) subs)).
Proof.
  intros Hk as_of.
  split; [|split; [|split; [|split; [|split; [|split; [|split; [|split]]]]]]].
  - destruct k as [y m]. apply month_end_is_last_day. exact Hk.
  - apply active_on_iff.
  - intro He. pose proof (active_on_end_date s as_of He) as Hf.
    split; [exact Hf|]. intros now before after with_s without.
    unfold month_arr. subst with_s without.
    rewrite (active_subs_month_drop now before s after as_of Hf). auto.
  - intros subs txns row Hin Hm.
    apply monthly_arr_data_row in Hin. destruct Hin as [Hrow _].
    rewrite Hm in Hrow. rewrite Hrow. cbn. auto.
  - intros subs x. rewrite active_subs_month_In, active_on_iff. reflexivity.
  - intro subs. split; reflexivity.
  - intros now before after x pre post with_s. split.
    + intro Ha. subst with_s pre post x.
      pose proof (active_subs_month_keep now before s after as_of Ha) as E.
      split; [exact E|]. split.
      * rewrite E, !length_app. cbn [length]. lia.
      * unfold month_arr. rewrite E, map_app. reflexivity.
    + intro Hf. subst with_s pre post.
      rewrite (active_subs_month_drop now before s after as_of Hf).
      rewrite map_app. apply active_subs_month_app.
  - intros now a Ha. unfold month_arr, active_subs_month. cbn [filter].
    change (Sub.base (step3_subscription now s)) with s.
    split; intros ->; cbn [map].
    + change (Sub.base (step3_subscription now s)) with s.
      rewrite Ha. cbn [nansum]. ring.
    + reflexivity.
  - intros subs txns summary chain row H Hin Hm.
    pose proof (step4_month_end_checked _ _ _ _ _ H Hin) as Hc.
    pose proof (summary_row_data _ _ _ _ _ H Hin) as Hd.
    apply monthly_arr_data_row in Hd. destruct Hd as [Hd _].
    rewrite Hm in Hc. split; [exact Hc|].
    unfold Summary.current_arr, Summary.active_customers, Summary.month in *.
    rewrite Hd, Hm. cbn. auto.
Qed.

Lemma active_at_month_end_witness :
  let k := mkym 2024 3 in
  let s := boundary_subscription in
  let o := scenario_a_subscription in
  let with_o := map (step3_subscription run_date) ([s] ++ o :: []) in
  (1 <= ym_month k <= 12)%Z
  /\ end_date s = Some (month_end k)
  /\ month_end k = d 2024 3 31
  /\ active_on s (month_end k) = false
  /\ month_arr (map (step3_subscription run_date) [s]) (month_end k) = 0
  /\ active_on o (month_end k) = true
  /\ active_subs_month with_o (month_end k) = [step3_subscription run_date o]
  /\ length (active_subs_month with_o (month_end k)) = 1%nat
  /\ month_arr with_o (month_end k) = nansum [Some 1200].
Proof.
  intros k s o with_o.
  assert (Hk : (1 <= ym_month k <= 12)%Z) by (cbn; lia).
  assert (He : end_date s = Some (month_end k)) by reflexivity.
  assert (Ho : active_on o (month_end k) = true) by reflexivity.
  destruct (active_at_month_end s k Hk) as [H1 [_ [H3 _]]].
  destruct (H3 He) as [Hf Hdrop].
  destruct (Hdrop run_date [] []) as [_ Harr].
  destruct (active_at_month_end o k Hk) as [_ [_ [_ [_ [_ [_ [H7 _]]]]]]].
  destruct (proj1 (H7 run_date [s] []) Ho) as [Hset [Hlen Hsum]].
  split; [exact Hk|]. split; [exact He|]. split; [exact H1|].
  split; [exact Hf|]. split; [exact Harr|]. split; [exact Ho|].
  split; [exact Hset|]. split; [exact Hlen | exact Hsum].
Defined.

(** With well-formed transaction dates every month key of the loop names
    a month of the calendar, and every monthly row is dated at the last
    day of its month. *)
Lemma monthly_rows_dated_at_month_end subs txns row :
  (forall t, In t txns -> valid_date (transaction_date t)) ->
  In row (monthly_arr_data subs (map step3_transaction txns)) ->
  Monthly.month_date row = last_day_of_month (Monthly.month row).
Proof.
  intros Hv Hin. apply monthly_arr_data_row in Hin. destruct Hin as [Hrow Hk].
  apply In_all_months in Hk. destruct Hk as [t [Ht Hkey]].
  apply in_map_iff in Ht. destruct Ht as [t0 [<- Ht0]].
  destruct (Hv t0 Ht0) as [Hm _].
  rewrite Hrow. cbn [monthly_row Monthly.month_date Monthly.month].
  destruct (Monthly.month row) as [y m].
  apply month_end_is_last_day. cbn in Hkey.
  injection Hkey as _ <-. exact Hm.
Qed.

(** Scenario A of the specification: one open-ended subscription of 1200
    starting on 15 January 2024 is counted at the end of January,
    February and March. *)
Example scenario_a_snapshots :
  let subs := map (step3_subscription run_date)
                  [mksub (Some 1%Z) (Some (d 2024 1 15)) None (Some 1200)] in
  map (fun k => (month_arr subs (month_end k),
                 length (active_subs_month subs (month_end k))))
      [mkym 2024 1; mkym 2024 2; mkym 2024 3]
  = [(1200 + 0, 1%nat); (1200 + 0, 1%nat); (1200 + 0, 1%nat)].
Proof. reflexivity. Qed.

(** Scenario B: a subscription of 600 ending on 1 March 2024 is counted at
    the end of January and February and not at the end of March. *)
Example scenario_b_snapshots :
  let subs := map (step3_subscription run_date) [scenario_b_subscription] in
  map (fun k => month_arr subs (month_end k))
      [mkym 2024 1; mkym 2024 2; mkym 2024 3]
  = [600 + 0; 600 + 0; 0].
Proof. reflexivity. Qed.

(* ------------------------------------------------------------------ *)
(** ** Months of the summary *)

(** C7 as stated fails: a ledger with transactions in January and March
    2024 yields rows for those two months only; February, which lies
    between the earliest and the latest transaction date, has no row. *)
Lemma month_without_transactions_is_absent :
  exists summary chain,
    run_pipeline run_date [] gap_transactions = Some (summary, chain)
    /\ map Summary.month summary = [mkym 2024 1; mkym 2024 3]
    /\ ym_lt (mkym 2024 1) (mkym 2024 2) /\ ym_lt (mkym 2024 2) (mkym 2024 3)
    /\ ~ In (mkym 2024 2) (map Summary.month summary).
Proof.
  do 2 eexists. split; [vm_compute; reflexivity|].
  split; [reflexivity|].
  split; [unfold ym_lt; cbn; lia|].
  split; [unfold ym_lt; cbn; lia|].
  cbn. intros [H|[H|[]]]; discriminate H.
Qed.

(** C7, amended.  The monthly aggregation has exactly one row for every
    calendar month in which at least one transaction is dated, in
    ascending order and without repetition; a month with no transaction
    has no row.  Within a month that has a row, a transaction type with
    no transaction in that month yields a sum of zero. *)
Theorem monthly_rows_follow_transaction_months subs txns :
  let rows := monthly_arr_data subs txns in
  (forall k, In k (map Monthly.month rows)
             <-> exists t, In t txns /\ Txn.year_month t = k)
  /\ StronglySorted ym_lt (map Monthly.month rows)
  /\ NoDup (map Monthly.month rows)
  /\ (forall row, In row rows ->
        let absent ty :=
          forall t, In t txns -> Txn.year_month t = Monthly.month row ->
                    transaction_type (Txn.base t) <> ty in
        (absent "new"%string -> Monthly.new_arr row = 0)
        /\ (absent "expansion"%string -> Monthly.expansion_arr row = 0)
        /\ (absent "contraction"%string -> Monthly.contraction_arr row = 0)
        /\ (absent "churn"%string -> Monthly.churned_arr row = 0)).
Proof.
  intro rows. subst rows. rewrite monthly_arr_data_months.
  split; [apply In_all_months|].
  split; [apply all_months_strict|].
  split; [apply StronglySorted_ym_lt_NoDup, all_months_strict|].
  intros row Hin absent.
  apply monthly_arr_data_row in Hin. destruct Hin as [Hrow _].
  assert (G : forall ty, absent ty ->
            type_sum ty (filter (fun t => ym_eqb (Txn.year_month t) (Monthly.month row))
                                txns) = 0).
  { intros ty Ha. apply type_sum_absent. intros t Ht.
    apply filter_In in Ht. destruct Ht as [Ht Hk].
    apply ym_eqb_eq in Hk. apply Ha; assumption. }
  rewrite Hrow. cbn. repeat split; intro Ha; apply G; exact Ha.
Qed.

Lemma monthly_rows_follow_transaction_months_witness :
  let txns := map step3_transaction (dropna gap_transactions) in
  let rows := monthly_arr_data [] txns in
  map Monthly.month rows = [mkym 2024 1; mkym 2024 3]
  /\ NoDup (map Monthly.month rows)
  /\ (In (mkym 2024 3) (map Monthly.month rows)
      <-> exists t, In t txns /\ Txn.year_month t = mkym 2024 3).
Proof.
  intros txns rows.
  destruct (monthly_rows_follow_transaction_months [] txns) as [Hin [_ [Hnd _]]].
  split; [reflexivity|]. split; [exact Hnd | exact (Hin (mkym 2024 3))].
Defined.

(* ------------------------------------------------------------------ *)
(** ** ARR per customer *)

(** C9.  In every row of the monthly summary, when no subscription is
    active at the month's end the stored customer count is zero and the
    arr_per_customer field is the number 0: the guard of line 199 is
    taken and the quotient, which is a float and can be [NaN] or an
    infinity, is not computed. *)
Theorem arr_per_customer_without_customers subs txns summary chain row :
  step4_arr_calculations subs txns = Some (summary, chain) ->
  In row summary ->
  length (active_subs_month subs (month_end (Summary.month row))) = 0%nat ->
  Summary.active_customers row = 0%nat
  /\ Summary.arr_per_customer row = FNum 0.
Proof.
  intros H Hin Hz.
  pose proof (summary_row_data _ _ _ _ _ H Hin) as Hd.
  apply monthly_arr_data_row in Hd. destruct Hd as [Hd _].
  unfold Summary.active_customers, Summary.arr_per_customer, Summary.month in *.
  rewrite Hd. cbn. rewrite Hz. split; reflexivity.
Qed.

Lemma arr_per_customer_without_customers_witness :
  let txns := map step3_transaction (dropna signed_contraction_transactions) in
  let row := Summary.mk
               (Monthly.mk (mkym 2024 1) (d 2024 1 31) 0 0 (-600) 0 600 0 0
                           (FNum 0))
               FNaN FNaN FNaN in
  step4_arr_calculations [] txns = Some (contraction_summary, contraction_chain)
  /\ In row contraction_summary
  /\ length (active_subs_month [] (month_end (Summary.month row))) = 0%nat
  /\ Summary.active_customers row = 0%nat
  /\ Summary.arr_per_customer row = FNum 0.
Proof.
  intros txns row.
  assert (H : step4_arr_calculations [] txns
              = Some (contraction_summary, contraction_chain)) by (vm_compute; reflexivity).
  assert (Hin : In row contraction_summary) by (vm_compute; left; reflexivity).
  assert (Hz : length (active_subs_month [] (month_end (Summary.month row))) = 0%nat)
    by reflexivity.
  split; [exact H|]. split; [exact Hin|]. split; [exact Hz|].
  exact (arr_per_customer_without_customers [] txns _ _ row H Hin Hz).
Defined.

(** What the guard avoids: the sum over no subscription divided by the
    count 0 is [NaN]. *)
Example unguarded_division_is_nan :
  fdiv (FNum (month_arr [] (month_end (mkym 2024 1))))
       (FNum (inject_Z (Z.of_nat (length (active_subs_month [] (month_end (mkym 2024 1)))))))
  = FNaN.
Proof. reflexivity. Qed.

(* ------------------------------------------------------------------ *)
(** ** Segments *)

Lemma segment_of_cases a :
  (a <= 0 /\ segment_of a = None)
  \/ (0 < a <= 600 /\ segment_of a = Some SMB)
  \/ (600 < a <= 2400 /\ segment_of a = Some MidMarket)
  \/ (2400 < a <= 6000 /\ segment_of a = Some Enterprise)
  \/ (6000 < a /\ segment_of a = Some Strategic).
Proof.
  unfold segment_of, cut, segment_bins, segment_labels.
  cbn [searchsorted_left edge_below length].
  destruct (Qltb 0 a) eqn:E0;
    [apply Qltb_lt in E0 | apply Qltb_ge in E0; left; split; [exact E0 | reflexivity]].
  destruct (Qltb 600 a) eqn:E1;
    [apply Qltb_lt in E1
    | apply Qltb_ge in E1; right; left; split; [split; assumption | reflexivity]].
  destruct (Qltb 2400 a) eqn:E2;
    [apply Qltb_lt in E2
    | apply Qltb_ge in E2; right; right; left; split; [split; assumption | reflexivity]].
  destruct (Qltb 6000 a) eqn:E3;
    [apply Qltb_lt in E3
    | apply Qltb_ge in E3; right; right; right; left;
      split; [split; assumption | reflexivity]].
  right; right; right; right. split; [exact E3 | reflexivity].
Qed.

Lemma groupby_segment_ext l1 l2 :
  (forall g, filter (in_segment g) l1 = filter (in_segment g) l2) ->
  groupby_segment l1 = groupby_segment l2.
Proof.
  intro H. unfold groupby_segment, groupby_key_order.
  cbn [flat_map]. rewrite !H. reflexivity.
Qed.

(** A row that is inactive, or has no label, can be taken out of the
    frame without changing what [get_segments] returns. *)
Lemma get_segments_drop before x after :
  Sub.is_active x = false \/ Sub.customer_segment x = None ->
  get_segments (before ++ x :: after) = get_segments (before ++ after).
Proof.
  intro H. unfold get_segments.
  replace (groupby_segment (filter Sub.is_active (before ++ x :: after)))
    with (groupby_segment (filter Sub.is_active (before ++ after)));
    [reflexivity|].
  apply groupby_segment_ext. intro g.
  rewrite !filter_app. cbn [filter].
  destruct (Sub.is_active x) eqn:Ea; [|reflexivity].
  destruct H as [H|H]; [discriminate|].
  cbn [filter]. replace (in_segment g x) with false; [reflexivity|].
  unfold in_segment. rewrite H. reflexivity.
Qed.

(** C10.  The label given to an amount is SMB on (0, 600], Mid-Market
    on (600, 2400], Enterprise on (2400, 6000] and Strategic above
    6000; an amount equal to 600, 2400 or 6000 falls in the lower
    segment; an amount of zero (or below) gets no label, and a
    subscription whose amount is zero can be removed from the frame
    without changing any segment aggregate. *)
Theorem segment_assignment (now : date) (s : subscription) (a : Q) :
  arr_amount s = Some a ->
  let seg := Sub.customer_segment (step3_subscription now s) in
  (seg = Some SMB <-> 0 < a <= 600)
  /\ (seg = Some MidMarket <-> 600 < a <= 2400)
  /\ (seg = Some Enterprise <-> 2400 < a <= 6000)
  /\ (seg = Some Strategic <-> 6000 < a)
  /\ (seg = None <-> a <= 0)
  /\ (a == 600 -> seg = Some SMB)
  /\ (a == 2400 -> seg = Some MidMarket)
  /\ (a == 6000 -> seg = Some Enterprise)
  /\ (a == 0 ->
      seg = None
      /\ forall before after,
           get_segments (map (step3_subscription now) (before ++ s :: after))
           = get_segments (map (step3_subscription now) (before ++ after))).
Proof.
  intros Ha seg.
  assert (Hseg : seg = segment_of a).
  { subst seg. unfold step3_subscription, segment_of. cbn. now rewrite Ha. }
  rewrite Hseg.
  pose proof (segment_of_cases a) as C.
  repeat split; try intro H;
    try (destruct C as [[C1 C2]|[[C1 C2]|[[C1 C2]|[[C1 C2]|[C1 C2]]]]];
         rewrite C2 in *; first [reflexivity | discriminate | lra]).
  intros before after. rewrite !map_app. cbn [map].
  apply get_segments_drop. right. fold seg. rewrite Hseg.
  destruct C as [[C1 C2]|[[C1 C2]|[[C1 C2]|[[C1 C2]|[C1 C2]]]]];
    first [exact C2 | lra].
Qed.

Lemma segment_assignment_witness :
  let s := mksub (Some 9%Z) (Some (d 2024 1 1)) None (Some 0) in
  arr_amount s = Some 0
  /\ Sub.customer_segment (step3_subscription run_date s) = None
  /\ get_segments (map (step3_subscription run_date) (drift_subscriptions ++ [s]))
     = get_segments (map (step3_subscription run_date) (drift_subscriptions ++ [])).
Proof.
  intro s.
  assert (Ha : arr_amount s = Some 0) by reflexivity.
  pose proof (segment_assignment run_date s 0 Ha) as H.
  destruct H as [_ [_ [_ [_ [_ [_ [_ [_ H]]]]]]]].
  destruct (H (Qeq_refl 0)) as [Hn Hdrop].
  split; [exact Ha|]. split; [exact Hn|]. exact (Hdrop drift_subscriptions []).
Defined.

(* ------------------------------------------------------------------ *)
(** ** Growth rate *)

(** The growth columns of the first summary row are missing values. *)
Lemma growth_columns_first rows sr :
  nth_error (growth_columns rows) 0 = Some sr ->
  Summary.previous_arr sr = FNaN /\ Summary.arr_growth_rate sr = FNaN.
Proof.
  destruct rows as [|r rows]; [discriminate|].
  cbn. intros [= <-]. split; reflexivity.
Qed.


(** The rounding of line 207 is done on the double, not on the exact
    quotient: after snapshots of 800 and 909 the exact rate is 13.625,
    the double product lies just above it, and the stored rate is the
    double nearest to 13.63, not the one nearest to 13.62. *)
Example growth_rate_pct_rounds_the_double :
  growth_rate_pct (fsub (FNum 909) (FNum 800)) (FNum 800)
  = fval_of_b64 (b64_of_Q (1363 # 100))
  /\ growth_rate_pct (fsub (FNum 909) (FNum 800)) (FNum 800)
     <> fval_of_b64 (b64_of_Q (1362 # 100))
  /\ (909 - 800) / 800 * 100 == 13625 # 1000.
Proof.
  split; [vm_compute; reflexivity|].
  split; [vm_compute; discriminate | reflexivity].
Qed.

(** A base of zero is divided by as a double: the rate is an infinity
    when the snapshot moved away from zero and [NaN] when it stayed. *)
Example growth_rate_pct_on_zero_base :
  growth_rate_pct (fsub (FNum 1200) (FNum 0)) (FNum 0) = FPosInf
  /\ growth_rate_pct (fsub (FNum (-500)) (FNum 0)) (FNum 0) = FNegInf
  /\ growth_rate_pct (fsub (FNum 0) (FNum 0)) (FNum 0) = FNaN.
Proof. repeat split; vm_compute; reflexivity. Qed.




(* ------------------------------------------------------------------ *)
(** ** The rollforward check of the validator *)

Lemma iloc_last_app {A : Type} (l : list A) x : iloc_last (l ++ [x]) = Some x.
Proof.
  destruct l as [|a l]; [reflexivity|].
  cbn [app iloc_last]. f_equal. apply last_last.
Qed.

Lemma rollforward_math_issues_iff r :
  In RollforwardMathWrong (rollforward_math_issues r)
  <-> 100 < Qabs (calculated_ending r - Rollforward.ending_arr r).
Proof.
  unfold rollforward_math_issues.
  destruct (Qltb 100 _) eqn:E.
  - apply Qltb_lt in E. split; [intros _; exact E | intros _; now left].
  - apply Qltb_ge in E. split; [intros [] | intro; lra].
Qed.

(** Scenario C of the specification: components that add up to 103000
    raise nothing against a snapshot of 103000 and raise the finding
    against a snapshot of 98000. *)
Example scenario_c_rollforward_check :
  let record ending :=
    Rollforward.mk (mkym 2024 5) 100000 5000 2000 (-1000) (-3000) ending 3000
                   (FNum 3) in
  rollforward_math_issues (record 103000) = []
  /\ rollforward_math_issues (record 98000) = [RollforwardMathWrong].
Proof. split; reflexivity. Qed.

(** C2 as stated fails: on the drift ledger the January record is off
    by 1400, more than any fraction up to the whole of its ending_arr
    of 1000, and the validator returns no finding at all and accepts
    the run; only the February record was read. *)
Lemma drift_in_earlier_month_is_not_reported :
  exists summary chain jan,
    run_pipeline run_date drift_subscriptions drift_transactions
    = Some (summary, chain)
    /\ nth_error chain 0 = Some jan
    /\ Qabs (calculated_ending jan - Rollforward.ending_arr jan) == 1400
    /\ (forall fraction, 0 <= fraction <= 1 ->
          fraction * Rollforward.ending_arr jan
          < Qabs (calculated_ending jan - Rollforward.ending_arr jan))
    /\ validation_issues summary chain = Some []
    /\ step6_data_validation summary chain = Some true.
Proof.
  do 3 eexists. split; [vm_compute; reflexivity|].
  split; [reflexivity|].
  assert (E : Qabs (calculated_ending
                      (Rollforward.mk (mkym 2024 1) 0 1200 1200 0 0 1000 2400 FNaN)
                    - 1000) == 1400) by (vm_compute; reflexivity).
  split; [exact E|].
  split.
  - intros fraction Hf. cbn [Rollforward.ending_arr]. rewrite E. lra.
  - split; vm_compute; reflexivity.
Qed.

(** C2, amended.  The validator reads one bridge record, the last of
    the chain: it recomputes starting_arr + new_arr + expansion_arr +
    contraction_arr + churned_arr for it and emits its rollforward
    finding, a fixed sentence naming neither month nor amount, exactly
    when the absolute difference from ending_arr exceeds the constant
    100; the check of [validate_dashboard_data] accepts the same record
    exactly when the difference is below 100. *)
Theorem rollforward_check_reads_last_record summary chain issues :
  validation_issues summary chain = Some issues ->
  exists last,
    iloc_last chain = Some last
    /\ (In RollforwardMathWrong issues
        <-> 100 < Qabs (calculated_ending last - Rollforward.ending_arr last))
    /\ (waterfall_match chain = Some true
        <-> Qabs (calculated_ending last - Rollforward.ending_arr last) < 100)
    /\ (forall earlier summary',
          exists issues',
            validation_issues (summary' ++ summary) (earlier ++ chain) = Some issues'
            /\ (In RollforwardMathWrong issues' <-> In RollforwardMathWrong issues)).
Proof.
  unfold validation_issues.
  destruct (iloc_last summary) as [latest|] eqn:Es; [|discriminate].
  destruct (iloc_last chain) as [last|] eqn:Ec; [|discriminate].
  intros [= <-]. exists last. split; [reflexivity|].
  assert (G : forall (a b : list validation_issue) c,
            (forall x, In x a -> x <> RollforwardMathWrong) ->
            (forall x, In x b -> x <> RollforwardMathWrong) ->
            (In RollforwardMathWrong (a ++ b ++ c) <-> In RollforwardMathWrong c)).
  { intros a b c Ha Hb. rewrite !in_app_iff. split; [|auto].
    intros [H|[H|H]]; [exfalso; now apply (Ha _ H) | exfalso; now apply (Hb _ H) | exact H]. }
  assert (A1 : forall v (c : bool) x,
            In x (if c then [ArrPerCustomerOutsideRange v] else []) ->
            x <> RollforwardMathWrong).
  { intros v [] x; cbn; [intros [<-|[]]; discriminate | intros []]. }
  assert (A2 : forall v (c : bool) x,
            In x (if c then [GrowthRateUnrealistic v] else []) ->
            x <> RollforwardMathWrong).
  { intros v [] x; cbn; [intros [<-|[]]; discriminate | intros []]. }
  split; [|split].
  - rewrite G by (first [apply A1 | apply A2]).
    apply rollforward_math_issues_iff.
  - unfold waterfall_match. rewrite Ec. cbn [option_map].
    destruct (Qltb _ 100) eqn:E.
    + apply Qltb_lt in E. split; [intros _; exact E | reflexivity].
    + apply Qltb_ge in E. split; [discriminate | intro; lra].
  - intros earlier summary'.
    assert (Es' : iloc_last (summary' ++ summary) = Some latest).
    { destruct summary as [|s0 srest]; [discriminate|].
      destruct (exists_last (l := s0 :: srest) ltac:(discriminate)) as [l1 [x1 E1]].
      rewrite E1 in Es |- *. rewrite iloc_last_app in Es.
      rewrite app_assoc, iloc_last_app. exact Es. }
    assert (Ec' : iloc_last (earlier ++ chain) = Some last).
    { destruct chain as [|c0 crest]; [discriminate|].
      destruct (exists_last (l := c0 :: crest) ltac:(discriminate)) as [l1 [x1 E1]].
      rewrite E1 in Ec |- *. rewrite iloc_last_app in Ec.
      rewrite app_assoc, iloc_last_app. exact Ec. }
    rewrite Es', Ec'. eexists. split; [reflexivity|].
    rewrite !G by (first [apply A1 | apply A2]). reflexivity.
Qed.

Lemma rollforward_check_reads_last_record_witness :
  validation_issues drift_summary drift_chain = Some []
  /\ exists last,
       iloc_last drift_chain = Some last
       /\ (In RollforwardMathWrong []
           <-> 100 < Qabs (calculated_ending last - Rollforward.ending_arr last)).
Proof.
  assert (H : validation_issues drift_summary drift_chain = Some [])
    by (vm_compute; reflexivity).
  split; [exact H|].
  destruct (rollforward_check_reads_last_record drift_summary drift_chain [] H)
    as [last [Hl [Hiff _]]].
  exists last. split; [exact Hl | exact Hiff].
Defined.

(* ------------------------------------------------------------------ *)
(** ** Signs of the reduction components *)

Lemma Qsum_nonneg l : (forall x, In x l -> 0 <= x) -> 0 <= Qsum l.
Proof.
  induction l as [|x l IH]; intro H; cbn; [lra|].
  assert (0 <= x) by (apply H; now left).
  assert (0 <= Qsum l) by (apply IH; intros y Hy; apply H; now right).
  unfold Qsum in *. lra.
Qed.

Lemma annualize_churn_nonneg t :
  transaction_type t = "churn"%string -> 0 <= annualize t.
Proof.
  intro H. unfold annualize. rewrite H. cbn.
  pose proof (Qabs_nonneg (amount t)). nra.
Qed.

(** The churn column of a monthly row is never negative, whatever sign
    the ledger uses, so the churned_arr of a bridge record is never
    positive. *)
Lemma churned_arr_nonpositive subs txns summary chain r :
  step4_arr_calculations subs (map step3_transaction txns)
  = Some (summary, chain) ->
  In r chain ->
  Rollforward.churned_arr r <= 0.
Proof.
  intros H Hin. pose proof (step4_inv _ _ _ _ H) as [Hs [Hc _]].
  apply In_nth_error in Hin. destruct Hin as [i Hi].
  rewrite Hc in Hi. apply nth_error_rollforward_data in Hi.
  destruct Hi as [row [Hrow [_ [_ [_ [_ [_ [Hch _]]]]]]]].
  apply nth_error_In in Hrow.
  pose proof (summary_row_data _ _ _ _ _ H Hrow) as Hd.
  apply monthly_arr_data_row in Hd. destruct Hd as [Hd _].
  rewrite Hch, Hd. cbn [monthly_row Monthly.churned_arr].
  assert (0 <= type_sum "churn"
                 (filter (fun t => ym_eqb (Txn.year_month t)
                                          (Monthly.month (Summary.data row)))
                         (map step3_transaction txns))); [|lra].
  unfold type_sum. apply Qsum_nonneg. intros x Hx.
  apply in_map_iff in Hx. destruct Hx as [t [<- Ht]].
  apply filter_In in Ht. destruct Ht as [Ht Hty].
  apply filter_In in Ht. destruct Ht as [Ht _].
  apply in_map_iff in Ht. destruct Ht as [t0 [<- _]].
  cbn in Hty |- *. apply String.eqb_eq in Hty.
  apply annualize_churn_nonneg. exact Hty.
Qed.

(** When every contraction of the ledger is recorded as a magnitude, the
    contraction_arr of a bridge record is never positive either. *)
Lemma contraction_arr_nonpositive_for_magnitudes subs txns summary chain r :
  (forall t, In t txns -> transaction_type t = "contraction"%string ->
             0 <= amount t) ->
  step4_arr_calculations subs (map step3_transaction txns)
  = Some (summary, chain) ->
  In r chain ->
  Rollforward.contraction_arr r <= 0.
Proof.
  intros Hmag H Hin. pose proof (step4_inv _ _ _ _ H) as [Hs [Hc _]].
  apply In_nth_error in Hin. destruct Hin as [i Hi].
  rewrite Hc in Hi. apply nth_error_rollforward_data in Hi.
  destruct Hi as [row [Hrow [_ [_ [_ [_ [Hco _]]]]]]].
  apply nth_error_In in Hrow.
  pose proof (summary_row_data _ _ _ _ _ H Hrow) as Hd.
  apply monthly_arr_data_row in Hd. destruct Hd as [Hd _].
  rewrite Hco, Hd. cbn [monthly_row Monthly.contraction_arr].
  assert (0 <= type_sum "contraction"
                 (filter (fun t => ym_eqb (Txn.year_month t)
                                          (Monthly.month (Summary.data row)))
                         (map step3_transaction txns))); [|lra].
  unfold type_sum. apply Qsum_nonneg. intros x Hx.
  apply in_map_iff in Hx. destruct Hx as [t [<- Ht]].
  apply filter_In in Ht. destruct Ht as [Ht Hty].
  apply filter_In in Ht. destruct Ht as [Ht _].
  apply in_map_iff in Ht. destruct Ht as [t0 [<- Ht0]].
  cbn in Hty |- *. apply String.eqb_eq in Hty.
  pose proof (Hmag t0 Ht0 Hty) as Hpos.
  unfold annualize. rewrite Hty. cbn. nra.
Qed.

(** C4 on a ledger that records a contraction as a negative amount: the
    amount -50 is annualised to -600 without taking its magnitude, and
    the bridge record stores its negation, a contraction_arr of +600. *)
Theorem contraction_arr_positive_on_signed_ledger :
  exists summary chain r,
    run_pipeline run_date [] signed_contraction_transactions
    = Some (summary, chain)
    /\ chain = [r]
    /\ Rollforward.contraction_arr r == 600
    /\ 0 < Rollforward.contraction_arr r
    /\ Rollforward.churned_arr r <= 0.
Proof.
  do 3 eexists. split; [vm_compute; reflexivity|].
  split; [reflexivity|].
  split; [vm_compute; reflexivity|].
  split; [reflexivity | discriminate].
Qed.

(* ================================================================== *)
(** * Further properties of the pipeline and its consumers *)

(* ------------------------------------------------------------------ *)
(** ** Month ends and activity *)

Local Open Scope Z_scope.

Lemma date_le_trans a b c : date_le a b -> date_le b c -> date_le a c.
Proof. unfold date_le. lia. Qed.

Lemma StronglySorted_map {A B : Type} (R : A -> A -> Prop) (R' : B -> B -> Prop)
  (f : A -> B) (l : list A) :
  (forall a b, In a l -> In b l -> R a b -> R' (f a) (f b)) ->
  StronglySorted R l -> StronglySorted R' (map f l).
Proof.
  intros Hf Hs. induction Hs as [|a l Hs IH Hall]; cbn; constructor.
  - apply IH. intros x y Hx Hy. apply Hf; now right.
  - rewrite Forall_forall in *. intros y Hy.
    apply in_map_iff in Hy. destruct Hy as [x [<- Hx]].
    apply Hf; [now left | now right | auto].
Qed.

Lemma month_end_increasing k1 k2 :
  1 <= ym_month k1 <= 12 -> 1 <= ym_month k2 <= 12 ->
  ym_lt k1 k2 -> date_lt (month_end k1) (month_end k2).
Proof.
  destruct k1 as [y1 m1], k2 as [y2 m2]. cbn [ym_month]. intros H1 H2 Hlt.
  rewrite !month_end_is_last_day by assumption.
  unfold last_day_of_month, date_lt, ym_lt in *. cbn in *. lia.
Qed.

Local Open Scope Q_scope.

(** X2.  When the transaction dates are calendar days, the month_date
    column of the monthly table is strictly increasing: the rows are in
    chronological order and no two rows share a month end. *)
Theorem month_dates_strictly_increase subs txns :
  (forall t, In t txns -> valid_date (transaction_date t)) ->
  StronglySorted date_lt
    (map Monthly.month_date (monthly_arr_data subs (map step3_transaction txns))).
Proof.
  intro Hv. unfold monthly_arr_data. rewrite map_map. cbn [monthly_row Monthly.month_date].
  apply (StronglySorted_map ym_lt); [|apply all_months_strict].
  assert (Hk : forall k, In k (all_months (map step3_transaction txns)) ->
                         (1 <= ym_month k <= 12)%Z).
  { intros k Hin. apply In_all_months in Hin. destruct Hin as [t [Ht <-]].
    apply in_map_iff in Ht. destruct Ht as [t0 [<- Ht0]].
    exact (proj1 (Hv t0 Ht0)). }
  intros a b Ha Hb. apply month_end_increasing; auto.
Qed.

Lemma month_dates_strictly_increase_witness :
  (forall t, In t (dropna gap_transactions) -> valid_date (transaction_date t))
  /\ StronglySorted date_lt
       (map Monthly.month_date
            (monthly_arr_data [] (map step3_transaction (dropna gap_transactions)))).
Proof.
  assert (Hv : forall t, In t (dropna gap_transactions) ->
                         valid_date (transaction_date t)).
  { intros t [<-|[<-|[]]]; unfold valid_date; cbn; lia. }
  split; [exact Hv|].
  exact (month_dates_strictly_increase [] (dropna gap_transactions) Hv).
Defined.

(** X3.  The period in which a subscription passes the activity test has
    no hole: a subscription selected at two dates is selected at every
    date between them. *)
Theorem active_period_has_no_gap (s : subscription) (d1 d2 d3 : date) :
  active_on s d1 = true -> active_on s d3 = true ->
  date_le d1 d2 -> date_le d2 d3 ->
  active_on s d2 = true.
Proof.
  intros H1 H3 H12 H23.
  apply active_on_iff in H1. apply active_on_iff in H3. apply active_on_iff.
  destruct H1 as [[sd [Hsd Hle]] _]. destruct H3 as [_ Hend].
  split.
  - exists sd. split; [exact Hsd | eapply date_le_trans; eassumption].
  - destruct Hend as [Hn|[ed [Hed Hlt]]]; [now left | right].
    exists ed. split; [exact Hed | eapply date_le_lt_trans; eassumption].
Qed.

Lemma active_period_has_no_gap_witness :
  let s := scenario_b_subscription in
  active_on s (d 2024 1 31) = true /\ active_on s (d 2024 2 29) = true
  /\ date_le (d 2024 1 31) (d 2024 2 14) /\ date_le (d 2024 2 14) (d 2024 2 29)
  /\ active_on s (d 2024 2 14) = true.
Proof.
  intro s.
  assert (H1 : active_on s (d 2024 1 31) = true) by reflexivity.
  assert (H3 : active_on s (d 2024 2 29) = true) by reflexivity.
  assert (H12 : date_le (d 2024 1 31) (d 2024 2 14)) by (unfold date_le; cbn; lia).
  assert (H23 : date_le (d 2024 2 14) (d 2024 2 29)) by (unfold date_le; cbn; lia).
  split; [exact H1|]. split; [exact H3|]. split; [exact H12|]. split; [exact H23|].
  exact (active_period_has_no_gap s _ _ _ H1 H3 H12 H23).
Defined.

(* ------------------------------------------------------------------ *)
(** ** Shape of the summary and the bridge *)

Lemma map_snd_iterrows {A : Type} (df : list A) : map snd (iterrows df) = df.
Proof.
  unfold iterrows. generalize 0%nat.
  induction df as [|a df IH]; intro n; [reflexivity|].
  cbn. f_equal. apply IH.
Qed.

Lemma rollforward_data_months df :
  map Rollforward.month (rollforward_data df) = map Summary.month df.
Proof.
  unfold rollforward_data. rewrite map_map.
  rewrite <- (map_snd_iterrows df) at 2. rewrite map_map.
  apply map_ext. intros [i row]. reflexivity.
Qed.

Lemma summary_months subs txns :
  map Summary.month (growth_columns (monthly_arr_data subs txns)) = all_months txns.
Proof.
  rewrite <- (monthly_arr_data_months subs txns).
  rewrite <- (growth_columns_data (monthly_arr_data subs txns)) at 2.
  rewrite map_map. reflexivity.
Qed.

(** X5.  The bridge has one record per summary row, for the same month
    and in the same order; these months are the distinct transaction
    months in strictly ascending order. *)
Theorem bridge_follows_summary_months subs txns summary chain :
  step4_arr_calculations subs txns = Some (summary, chain) ->
  map Rollforward.month chain = map Summary.month summary
  /\ map Summary.month summary = all_months txns
  /\ length chain = length summary
  /\ StronglySorted ym_lt (map Rollforward.month chain).
Proof.
  intro H. apply step4_inv in H. destruct H as [Hs [Hc _]].
  assert (E1 : map Rollforward.month chain = map Summary.month summary)
    by (rewrite Hc; apply rollforward_data_months).
  assert (E2 : map Summary.month summary = all_months txns)
    by (rewrite Hs; apply summary_months).
  split; [exact E1|]. split; [exact E2|]. split.
  - rewrite Hc. apply rollforward_data_length.
  - rewrite E1, E2. apply all_months_strict.
Qed.

Lemma bridge_follows_summary_months_witness :
  let subs := map (step3_subscription run_date) drift_subscriptions in
  let txns := map step3_transaction (dropna drift_transactions) in
  step4_arr_calculations subs txns = Some (drift_summary, drift_chain)
  /\ map Rollforward.month drift_chain = map Summary.month drift_summary
  /\ map Summary.month drift_summary = all_months txns
  /\ length drift_chain = length drift_summary
  /\ StronglySorted ym_lt (map Rollforward.month drift_chain).
Proof.
  intros subs txns.
  assert (H : step4_arr_calculations subs txns = Some (drift_summary, drift_chain))
    by (vm_compute; reflexivity).
  split; [exact H|].
  exact (bridge_follows_summary_months subs txns _ _ H).
Defined.

(** X6.  In every summary row the customer count is at most the number
    of subscription rows; with no active customer the point-in-time ARR
    is the empty sum 0; with at least one, arr_per_customer is the
    quotient of the row's own point-in-time ARR by its own count. *)
Theorem summary_row_figures subs txns summary chain row :
  step4_arr_calculations subs txns = Some (summary, chain) ->
  In row summary ->
  (Summary.active_customers row <= length subs)%nat
  /\ (Summary.active_customers row = 0%nat -> Summary.current_arr row = 0)
  /\ ((0 < Summary.active_customers row)%nat ->
      Summary.arr_per_customer row
      = fdiv (FNum (Summary.current_arr row))
             (FNum (inject_Z (Z.of_nat (Summary.active_customers row))))).
Proof.
  intros H Hin.
  pose proof (summary_row_data _ _ _ _ _ H Hin) as Hd.
  apply monthly_arr_data_row in Hd. destruct Hd as [Hd _].
  unfold Summary.active_customers, Summary.arr_per_customer, Summary.current_arr.
  rewrite Hd. cbn [monthly_row Monthly.active_customers
                     Monthly.arr_per_customer Monthly.current_arr].
  set (as_of := month_end (Monthly.month (Summary.data row))).
  split; [|split].
  - unfold active_subs_month. apply filter_length_le.
  - unfold month_arr. intro Hz. apply length_zero_iff_nil in Hz.
    rewrite Hz. reflexivity.
  - intro Hpos.
    destruct (Nat.ltb_spec 0 (length (active_subs_month subs as_of))); [|lia].
    reflexivity.
Qed.

Lemma summary_row_figures_witness :
  let subs := map (step3_subscription run_date) drift_subscriptions in
  let txns := map step3_transaction (dropna drift_transactions) in
  exists row,
    step4_arr_calculations subs txns = Some (drift_summary, drift_chain)
    /\ nth_error drift_summary 1 = Some row
    /\ (0 < Summary.active_customers row)%nat
    /\ Summary.arr_per_customer row
       = fdiv (FNum (Summary.current_arr row))
              (FNum (inject_Z (Z.of_nat (Summary.active_customers row)))).
Proof.
  intros subs txns.
  assert (H : step4_arr_calculations subs txns = Some (drift_summary, drift_chain))
    by (vm_compute; reflexivity).
  destruct (nth_error drift_summary 1) as [row|] eqn:E; [|discriminate E].
  exists row. split; [exact H|]. split; [reflexivity|].
  assert (Hin : In row drift_summary) by (eapply nth_error_In; exact E).
  assert (Hpos : (0 < Summary.active_customers row)%nat).
  { vm_compute in E. injection E as <-. cbn. lia. }
  split; [exact Hpos|].
  exact (proj2 (proj2 (summary_row_figures subs txns _ _ row H Hin)) Hpos).
Defined.

(* ------------------------------------------------------------------ *)
(** ** The validator on the output of the pipeline *)

Lemma iloc_last_nth_error {A : Type} (df : list A) :
  iloc_last df = nth_error df (length df - 1).
Proof.
  destruct df as [|a df]; [reflexivity|].
  destruct (exists_last (l := a :: df) ltac:(discriminate)) as [l [x ->]].
  rewrite iloc_last_app, length_app. cbn [length].
  replace (length l + 1 - 1)%nat with (length l) by lia.
  rewrite nth_error_app2, Nat.sub_diag by lia. reflexivity.
Qed.

Lemma iloc_last_None_iff {A : Type} (df : list A) :
  iloc_last df = None <-> df = [].
Proof. destruct df; cbn; split; congruence. Qed.

Lemma iloc_last_In {A : Type} (df : list A) x : iloc_last df = Some x -> In x df.
Proof. rewrite iloc_last_nth_error. apply nth_error_In. Qed.

(** A row of the summary is the loop body run on its month. *)
Lemma summary_row_is_loop_body subs txns summary chain row :
  step4_arr_calculations subs txns = Some (summary, chain) ->
  In row summary ->
  Summary.data row = monthly_row subs txns (Summary.month row).
Proof.
  intros H Hin. pose proof (summary_row_data _ _ _ _ _ H Hin) as Hd.
  apply monthly_arr_data_row in Hd. apply Hd.
Qed.

Lemma step6_None_iff summary chain :
  step6_data_validation summary chain = None <-> summary = [] \/ chain = [].
Proof.
  unfold step6_data_validation, validation_issues.
  rewrite <- (iloc_last_None_iff summary), <- (iloc_last_None_iff chain).
  destruct (iloc_last summary), (iloc_last chain); cbn; split;
    try discriminate; try (intros [?|?]; congruence); auto.
Qed.

(** The validator returns a list of findings on every output of
    [step4_arr_calculations]. *)
Lemma validation_issues_total subs txns summary chain :
  step4_arr_calculations subs txns = Some (summary, chain) ->
  exists issues,
    validation_issues summary chain = Some issues
    /\ step6_data_validation summary chain = Some (length issues =? 0)%nat.
Proof.
  intro H. unfold step6_data_validation.
  destruct (validation_issues summary chain) as [issues|] eqn:E.
  - exists issues. split; reflexivity.
  - exfalso.
    assert (E' : step6_data_validation summary chain = None)
      by (unfold step6_data_validation; rewrite E; reflexivity).
    apply step6_None_iff in E'.
    pose proof (step4_inv _ _ _ _ H) as [_ [Hc Hlen]].
    assert (length chain = length summary)
      by (rewrite Hc; apply rollforward_data_length).
    destruct E' as [-> | ->]; cbn in *; lia.
Qed.

(** X8.  [step6_data_validation] raises (the [IndexError] of
    [iloc[-1]]) exactly when one of its two frames is empty, which never
    happens on frames returned by [step4_arr_calculations]. *)
Theorem validation_raises_only_on_empty_frames :
  (forall summary chain,
     step6_data_validation summary chain = None <-> summary = [] \/ chain = [])
  /\ (forall subs txns summary chain,
        step4_arr_calculations subs txns = Some (summary, chain) ->
        exists verdict, step6_data_validation summary chain = Some verdict).
Proof.
  split; [exact step6_None_iff|].
  intros subs txns summary chain H.
  destruct (validation_issues_total _ _ _ _ H) as [issues [_ Hv]].
  eexists. exact Hv.
Qed.

(** X9.  For a ledger whose transactions all fall in one month the
    summary has a single row, the average growth rate is NaN and the
    growth check of the validator stays silent, whatever the figures. *)
Theorem single_month_has_no_growth_finding subs txns summary chain issues :
  step4_arr_calculations subs txns = Some (summary, chain) ->
  length summary = 1%nat ->
  validation_issues summary chain = Some issues ->
  fmean (map Summary.arr_growth_rate summary) = FNaN
  /\ forall v, ~ In (GrowthRateUnrealistic v) issues.
Proof.
  intros H Hlen Hi.
  pose proof (step4_inv _ _ _ _ H) as [Hs _].
  destruct summary as [|row [|row' rest]]; try discriminate Hlen.
  assert (Hrow : nth_error (growth_columns (monthly_arr_data subs txns)) 0 = Some row)
    by (rewrite <- Hs; reflexivity).
  apply growth_columns_first in Hrow. destruct Hrow as [_ Hnan].
  assert (Hm : fmean (map Summary.arr_growth_rate [row]) = FNaN)
    by (cbn [map]; rewrite Hnan; reflexivity).
  split; [exact Hm|].
  unfold validation_issues in Hi.
  destruct (iloc_last [row]) as [latest|]; [|discriminate].
  destruct (iloc_last chain) as [last|]; [|discriminate].
  rewrite Hm in Hi. cbn [fltb orb app] in Hi.
  injection Hi as <-. intros v Hin.
  apply in_app_iff in Hin. destruct Hin as [Hin|Hin].
  - destruct (_ || _) in Hin; cbn in Hin;
      [destruct Hin as [Hin|[]]; discriminate Hin | destruct Hin].
  - unfold rollforward_math_issues in Hin.
    destruct (Qltb 100 _) in Hin; cbn in Hin;
      [destruct Hin as [Hin|[]]; discriminate Hin | destruct Hin].
Qed.

Lemma single_month_has_no_growth_finding_witness :
  let txns := map step3_transaction (dropna signed_contraction_transactions) in
  step4_arr_calculations [] txns = Some (contraction_summary, contraction_chain)
  /\ length contraction_summary = 1%nat
  /\ validation_issues contraction_summary contraction_chain
     = Some [ArrPerCustomerOutsideRange (FNum 0); RollforwardMathWrong]
  /\ fmean (map Summary.arr_growth_rate contraction_summary) = FNaN.
Proof.
  intro txns.
  assert (H : step4_arr_calculations [] txns
              = Some (contraction_summary, contraction_chain)) by (vm_compute; reflexivity).
  assert (Hlen : length contraction_summary = 1%nat) by reflexivity.
  assert (Hi : validation_issues contraction_summary contraction_chain
               = Some [ArrPerCustomerOutsideRange (FNum 0); RollforwardMathWrong])
    by (vm_compute; reflexivity).
  split; [exact H|]. split; [exact Hlen|]. split; [exact Hi|].
  exact (proj1 (single_month_has_no_growth_finding [] txns _ _ _ H Hlen Hi)).
Defined.

(** X10.  When no subscription is active at the end of the latest
    month, the validator reports an ARR per customer of 0 as out of
    range and the run does not pass, whatever the other figures. *)
Theorem no_active_customer_fails_validation subs txns summary chain latest :
  step4_arr_calculations subs txns = Some (summary, chain) ->
  iloc_last summary = Some latest ->
  Summary.active_customers latest = 0%nat ->
  (exists issues,
      validation_issues summary chain = Some issues
      /\ In (ArrPerCustomerOutsideRange (FNum 0)) issues)
  /\ step6_data_validation summary chain = Some false.
Proof.
  intros H Hl Hz.
  pose proof (summary_row_is_loop_body _ _ _ _ _ H (iloc_last_In _ _ Hl)) as Hd.
  assert (Hap : Summary.arr_per_customer latest = FNum 0).
  { unfold Summary.arr_per_customer, Summary.active_customers in *.
    rewrite Hd in Hz |- *. cbn in Hz |- *. rewrite Hz. reflexivity. }
  assert (Hc : exists last, iloc_last chain = Some last).
  { destruct (iloc_last chain) as [last|] eqn:E; [eauto|].
    apply iloc_last_None_iff in E.
    pose proof (step4_inv _ _ _ _ H) as [_ [Hc Hlen]].
    assert (length chain = length summary)
      by (rewrite Hc; apply rollforward_data_length).
    rewrite E in *. cbn in *. lia. }
  destruct Hc as [last Hc].
  unfold step6_data_validation, validation_issues.
  rewrite Hl, Hc.
  rewrite Hap. change (fltb (FNum 0) (FNum 300)) with true. cbn [orb app].
  split; [|reflexivity].
  eexists. split; [reflexivity | now left].
Qed.

Lemma no_active_customer_fails_validation_witness :
  let txns := map step3_transaction (dropna signed_contraction_transactions) in
  exists latest,
    step4_arr_calculations [] txns = Some (contraction_summary, contraction_chain)
    /\ iloc_last contraction_summary = Some latest
    /\ Summary.active_customers latest = 0%nat
    /\ step6_data_validation contraction_summary contraction_chain = Some false.
Proof.
  intro txns.
  assert (H : step4_arr_calculations [] txns
              = Some (contraction_summary, contraction_chain)) by (vm_compute; reflexivity).
  destruct (iloc_last contraction_summary) as [latest|] eqn:E; [|discriminate E].
  exists latest.
  assert (Hz : Summary.active_customers latest = 0%nat).
  { vm_compute in E. injection E as <-. reflexivity. }
  split; [exact H|]. split; [reflexivity|]. split; [exact Hz|].
  exact (proj2 (no_active_customer_fails_validation [] txns _ _ latest H E Hz)).
Defined.

(* ------------------------------------------------------------------ *)
(** ** When the run fails *)

Lemma dropna_nil_iff rows :
  dropna rows = [] <-> forall r, In r rows -> is_complete r = false.
Proof.
  unfold dropna. induction rows as [|r rows IH].
  - split; [intros _ r [] | reflexivity].
  - cbn [flat_map]. split.
    + intros H r' [<-|Hr'].
      * unfold is_complete.
        destruct (raw_transaction_date r), (raw_amount r);
          [discriminate H | reflexivity..].
      * apply IH; [|exact Hr'].
        destruct (raw_transaction_date r), (raw_amount r);
          [discriminate H | exact H..].
    + intro H. pose proof (H r (or_introl eq_refl)) as Hr.
      unfold is_complete in Hr.
      assert (IH' : flat_map
                (fun r0 => match raw_transaction_date r0, raw_amount r0 with
                           | Some d, Some a => [mktxn d (raw_transaction_type r0) a]
                           | _, _ => []
                           end) rows = []).
      { apply IH. intros r' Hr'. apply H. now right. }
      rewrite IH'.
      destruct (raw_transaction_date r), (raw_amount r);
        [discriminate Hr | reflexivity..].
Qed.

Lemma all_months_nil_iff txns : all_months txns = [] <-> txns = [].
Proof.
  split; [|intros ->; reflexivity].
  intro H. destruct txns as [|t txns]; [reflexivity|].
  assert (Hin : In (Txn.year_month t) (all_months (t :: txns))).
  { apply In_all_months. exists t. split; [now left | reflexivity]. }
  rewrite H in Hin. destruct Hin.
Qed.

Lemma month_end_raises_iff txns :
  existsb month_end_raises (all_months txns) = true
  <-> exists t, In t txns /\ month_end_checked (Txn.year_month t) = None.
Proof.
  rewrite existsb_exists. unfold month_end_raises. split.
  - intros [k [Hk Hr]]. apply In_all_months in Hk. destruct Hk as [t [Ht <-]].
    exists t. split; [exact Ht|].
    destruct (month_end_checked (Txn.year_month t)); [discriminate | reflexivity].
  - intros [t [Ht Hr]]. exists (Txn.year_month t). split.
    + apply In_all_months. exists t. split; [exact Ht | reflexivity].
    + rewrite Hr. reflexivity.
Qed.

(** [step4_arr_calculations] fails on an empty transaction frame and
    when the month end of one of the months cannot be computed. *)
Lemma step4_None_iff subs txns :
  step4_arr_calculations subs txns = None
  <-> txns = []
      \/ exists t, In t txns /\ month_end_checked (Txn.year_month t) = None.
Proof.
  rewrite <- all_months_nil_iff, <- month_end_raises_iff.
  unfold step4_arr_calculations, monthly_arr_data.
  destruct (existsb month_end_raises (all_months txns));
    [split; [intros _; right; reflexivity | reflexivity]|].
  destruct (all_months txns) as [|k ks]; cbn [map].
  - split; [intros _; left; reflexivity | reflexivity].
  - split; [discriminate | intros [H|H]; discriminate H].
Qed.

(** Whether the run fails does not depend on the subscriptions. *)
Lemma step4_failure_ignores_subscriptions subs subs' txns :
  step4_arr_calculations subs txns = None
  <-> step4_arr_calculations subs' txns = None.
Proof. rewrite !step4_None_iff. reflexivity. Qed.

(** The summary and the bridge depend on the subscriptions only through
    the sets selected at the month ends. *)
Lemma step4_ext subs subs' txns :
  (forall as_of, active_subs_month subs as_of = active_subs_month subs' as_of) ->
  step4_arr_calculations subs txns = step4_arr_calculations subs' txns.
Proof.
  intro H.
  assert (E : monthly_arr_data subs txns = monthly_arr_data subs' txns).
  { unfold monthly_arr_data. apply map_ext. intro k.
    unfold monthly_row, month_arr. rewrite H. reflexivity. }
  unfold step4_arr_calculations. rewrite E. reflexivity.
Qed.

Lemma run_pipeline_eq now subs raw :
  run_pipeline now subs raw
  = step4_arr_calculations (map (step3_subscription now) subs)
                           (map step3_transaction (dropna raw)).
Proof. reflexivity. Qed.

Lemma In_dropna t rows :
  In t (dropna rows)
  <-> exists r, In r rows
                /\ raw_transaction_date r = Some (transaction_date t)
                /\ raw_amount r = Some (amount t)
                /\ raw_transaction_type r = transaction_type t.
Proof.
  unfold dropna. rewrite in_flat_map. split.
  - intros [r [Hr Ht]]. exists r. split; [exact Hr|].
    destruct (raw_transaction_date r) as [dt|], (raw_amount r) as [a|];
      [|destruct Ht..].
    destruct Ht as [<-|[]]. cbn. auto.
  - intros [r [Hr [Hd [Ha Hty]]]]. exists r. split; [exact Hr|].
    rewrite Hd, Ha, Hty. left. destruct t; reflexivity.
Qed.

(** X4.  [step4_arr_calculations] fails when the transaction frame has
    no row (the [KeyError] on the column-less summary frame) and when
    the month end of one of its months cannot be computed, and in no
    other case, whatever the subscriptions.  Among the months of the
    years 1000 to 9999 the month end cannot be computed for December
    9999 only, where the four added days leave the range of [datetime].
    So a run on parsed rows with such dates fails exactly when no row
    has both a date and an amount or a complete row is dated December
    9999. *)
Theorem step4_failure_conditions :
  (forall subs txns,
     step4_arr_calculations subs txns = None
     <-> txns = []
         \/ exists t, In t txns /\ month_end_checked (Txn.year_month t) = None)
  /\ (forall k,
        (1000 <= ym_year k <= 9999)%Z -> (1 <= ym_month k <= 12)%Z ->
        (month_end_checked k = None
         <-> ym_year k = 9999%Z /\ ym_month k = 12%Z))
  /\ (forall now subs raw,
        (forall r dt, In r raw -> raw_transaction_date r = Some dt ->
                      valid_date dt /\ (1000 <= year dt <= 9999)%Z) ->
        (run_pipeline now subs raw = None
         <-> (forall r, In r raw -> is_complete r = false)
             \/ exists r dt,
                  In r raw /\ is_complete r = true
                  /\ raw_transaction_date r = Some dt
                  /\ year dt = 9999%Z /\ month dt = 12%Z)).
Proof.
  assert (K : forall k,
            (1000 <= ym_year k <= 9999)%Z -> (1 <= ym_month k <= 12)%Z ->
            (month_end_checked k = None
             <-> ym_year k = 9999%Z /\ ym_month k = 12%Z)).
  { intros k Hy Hm. rewrite month_end_checked_None_iff.
    split; [intros [Hn|H]; [exfalso; apply Hn; lia | exact H] | auto]. }
  split; [exact step4_None_iff|]. split; [exact K|].
  intros now subs raw Hv.
  rewrite run_pipeline_eq, step4_None_iff, <- dropna_nil_iff.
  split.
  - intros [Hnil|[t [Ht Hr]]].
    + left. destruct (dropna raw); [reflexivity | discriminate Hnil].
    + right. apply in_map_iff in Ht. destruct Ht as [t0 [<- Ht0]].
      apply In_dropna in Ht0. destruct Ht0 as [r [Hr0 [Hd [Ha _]]]].
      destruct (Hv r _ Hr0 Hd) as [[Hm _] Hy].
      cbn [step3_transaction Txn.year_month] in Hr.
      apply K in Hr; [|exact Hy | exact Hm].
      exists r, (transaction_date t0). split; [exact Hr0|].
      split; [unfold is_complete; rewrite Hd, Ha; reflexivity|].
      split; [exact Hd | exact Hr].
  - intros [Hnil|[r [dt [Hr0 [Hc [Hd [Hy Hm]]]]]]].
    + left. rewrite Hnil. reflexivity.
    + right. unfold is_complete in Hc. rewrite Hd in Hc.
      destruct (raw_amount r) as [a|] eqn:Ha; [|discriminate Hc].
      exists (step3_transaction (mktxn dt (raw_transaction_type r) a)). split.
      * apply in_map, In_dropna. exists r. cbn. auto.
      * cbn [step3_transaction Txn.year_month transaction_date].
        apply month_end_checked_None_iff. right. cbn. auto.
Qed.

(** A complete ledger dated December 9999 stops the run; the same
    ledger dated November 9999 does not. *)
Example december_9999_run_fails :
  run_pipeline run_date drift_subscriptions
               [mkraw (Some (d 9999 12 5)) "new" (Some 100)] = None
  /\ run_pipeline run_date drift_subscriptions
                  [mkraw (Some (d 9999 11 5)) "new" (Some 100)] <> None.
Proof. split; [vm_compute; reflexivity | vm_compute; discriminate]. Qed.

(* ------------------------------------------------------------------ *)
(** ** Records with inconsistent dates or a negative amount *)

Lemma date_le_lt_absurd a b : date_le a b -> date_lt b a -> False.
Proof. unfold date_le, date_lt. lia. Qed.

Lemma never_active_when_ends_before_start s sd ed :
  start_date s = Some sd -> end_date s = Some ed -> date_le ed sd ->
  forall as_of, active_on s as_of = false.
Proof.
  intros Hs He Hle as_of.
  destruct (active_on s as_of) eqn:E; [|reflexivity].
  apply active_on_iff in E.
  destruct E as [[sd' [Hsd' H1]] [H2|[ed' [Hed' H2]]]]; [congruence|].
  rewrite Hs in Hsd'. rewrite He in Hed'.
  injection Hsd' as <-. injection Hed' as <-.
  exfalso. apply (date_le_lt_absurd ed sd Hle).
  eapply date_le_lt_trans; eassumption.
Qed.

(** C8 as stated fails: a subscription with arr_amount -500 is counted
    as an active customer and its amount is the point-in-time ARR of
    both months, where the same ledger without it gives 0; the findings
    of the run are two aggregate ones, none about the record. *)
Lemma negative_amount_is_aggregated :
  exists summary chain summary0 chain0,
    run_pipeline run_date [negative_subscription] gap_transactions
    = Some (summary, chain)
    /\ run_pipeline run_date [] gap_transactions = Some (summary0, chain0)
    /\ arr_amount negative_subscription = Some (-500)
    /\ map Summary.active_customers summary = [1; 1]%nat
    /\ map Summary.current_arr summary = [-500; -500]
    /\ map Summary.current_arr summary0 = [0; 0]
    /\ validation_issues summary chain
       = Some [ArrPerCustomerOutsideRange (FNum (-500)); RollforwardMathWrong].
Proof.
  do 4 eexists.
  split; [vm_compute; reflexivity|].
  split; [vm_compute; reflexivity|].
  repeat split; vm_compute; reflexivity.
Qed.

(** The findings of the validator are three checks on whole frames:
    the latest month's ARR per customer, the mean growth rate and the
    reconciliation of the last bridge row. *)
Lemma validation_issues_forms summary chain issues :
  validation_issues summary chain = Some issues ->
  exists latest,
    iloc_last summary = Some latest
    /\ forall i, In i issues ->
         i = ArrPerCustomerOutsideRange (Summary.arr_per_customer latest)
         \/ i = GrowthRateUnrealistic (fmean (map Summary.arr_growth_rate summary))
         \/ i = RollforwardMathWrong.
Proof.
  unfold validation_issues.
  destruct (iloc_last summary) as [latest|]; [|discriminate].
  destruct (iloc_last chain) as [last|]; [|discriminate].
  intros [= <-]. exists latest. split; [reflexivity|].
  intros i Hi. apply in_app_iff in Hi. destruct Hi as [Hi|Hi].
  - destruct (_ || _) in Hi; [destruct Hi as [<-|[]]; auto | destruct Hi].
  - apply in_app_iff in Hi. destruct Hi as [Hi|Hi].
    + destruct (_ || _) in Hi; [destruct Hi as [<-|[]]; auto | destruct Hi].
    + unfold rollforward_math_issues in Hi.
      destruct (Qltb 100 _) in Hi; [destruct Hi as [<-|[]]; auto | destruct Hi].
Qed.

(** C8, amended.  Cleaning removes no subscription, no subscription
    record makes the run fail, and the validator answers on every
    output with findings about whole frames, none about a record.  A
    subscription whose end date is on or before its start date passes
    the activity test at no date, so it is in no active set and adds
    nothing to point-in-time ARR or to the segment aggregates: the run
    returns what it returns without the record.  A subscription with a
    negative amount gets no segment label and is left out of the segment
    aggregates, but in every month at whose end it is active it is
    counted as a customer and its amount is among the amounts summed
    into the point-in-time ARR. *)
Theorem integrity_faults_as_handled (now : date) (s : subscription) :
  (forall subs raw, fst (step2_data_cleaning subs raw) = subs)
  /\ (forall before after raw,
        (run_pipeline now (before ++ s :: after) raw = None
         <-> run_pipeline now (before ++ after) raw = None)
        /\ forall summary chain,
             run_pipeline now (before ++ s :: after) raw = Some (summary, chain) ->
             exists issues latest,
               validation_issues summary chain = Some issues
               /\ step6_data_validation summary chain
                  = Some (length issues =? 0)%nat
               /\ iloc_last summary = Some latest
               /\ forall i, In i issues ->
                    i = ArrPerCustomerOutsideRange (Summary.arr_per_customer latest)
                    \/ i = GrowthRateUnrealistic
                           (fmean (map Summary.arr_growth_rate summary))
                    \/ i = RollforwardMathWrong)
  /\ (forall sd ed,
        start_date s = Some sd -> end_date s = Some ed -> date_le ed sd ->
        forall before after,
          let with_s := map (step3_subscription now) (before ++ s :: after) in
          let without := map (step3_subscription now) (before ++ after) in
          (forall as_of,
             active_on s as_of = false
             /\ active_subs_month with_s as_of = active_subs_month without as_of
             /\ month_arr with_s as_of = month_arr without as_of)
          /\ get_segments with_s = get_segments without
          /\ forall raw,
               run_pipeline now (before ++ s :: after) raw
               = run_pipeline now (before ++ after) raw)
  /\ (forall a,
        arr_amount s = Some a -> a < 0 ->
        Sub.customer_segment (step3_subscription now s) = None
        /\ (forall before after,
              get_segments (map (step3_subscription now) (before ++ s :: after))
              = get_segments (map (step3_subscription now) (before ++ after)))
        /\ (forall before after raw summary chain row,
              run_pipeline now (before ++ s :: after) raw = Some (summary, chain) ->
              In row summary ->
              let as_of := month_end (Summary.month row) in
              let pre :=
                active_subs_month (map (step3_subscription now) before) as_of in
              let post :=
                active_subs_month (map (step3_subscription now) after) as_of in
              active_on s as_of = true ->
              Summary.active_customers row = S (length (pre ++ post))
              /\ Summary.current_arr row
                 = nansum (map (fun x => arr_amount (Sub.base x)) pre
                           ++ Some a
                              :: map (fun x => arr_amount (Sub.base x)) post))).
Proof.
  split; [reflexivity|]. split; [|split].
  - intros before after raw. split.
    + rewrite !run_pipeline_eq. apply step4_failure_ignores_subscriptions.
    + intros summary chain H. rewrite run_pipeline_eq in H.
      destruct (validation_issues_total _ _ _ _ H) as [issues [Hi Hv]].
      destruct (validation_issues_forms _ _ _ Hi) as [latest [Hl Hf]].
      exists issues, latest. auto.
  - intros sd ed Hs He Hle before after with_s without.
    pose proof (never_active_when_ends_before_start s sd ed Hs He Hle) as Hn.
    assert (Hset : forall as_of,
              active_subs_month with_s as_of = active_subs_month without as_of).
    { intro as_of. subst with_s without.
      apply active_subs_month_drop, Hn. }
    split; [|split].
    + intro as_of. unfold month_arr. rewrite Hset. auto.
    + subst with_s without. rewrite !map_app. cbn [map].
      apply get_segments_drop. left. cbn. apply Hn.
    + intro raw. rewrite !run_pipeline_eq. apply step4_ext. exact Hset.
  - intros a Ha Hneg.
    assert (Hseg : Sub.customer_segment (step3_subscription now s) = None).
    { unfold step3_subscription. cbn. rewrite Ha.
      change (segment_of a = None).
      destruct (segment_of_cases a)
        as [[C1 C2]|[[C1 C2]|[[C1 C2]|[[C1 C2]|[C1 C2]]]]];
        first [exact C2 | lra]. }
    split; [exact Hseg|]. split.
    + intros before after. rewrite !map_app. cbn [map].
      apply get_segments_drop. right. exact Hseg.
    + intros before after raw summary chain row H Hin as_of pre post Hact.
      rewrite run_pipeline_eq in H.
      pose proof (summary_row_data _ _ _ _ _ H Hin) as Hd.
      apply monthly_arr_data_row in Hd. destruct Hd as [Hd _].
      pose proof (active_subs_month_keep now before s after as_of Hact) as E.
      unfold Summary.active_customers, Summary.current_arr.
      rewrite Hd.
      cbn [monthly_row Monthly.active_customers Monthly.current_arr].
      unfold month_arr. fold (Summary.month row). fold as_of.
      rewrite E. fold pre post. split.
      * rewrite !length_app. cbn [length]. lia.
      * rewrite map_app. cbn [map].
        change (Sub.base (step3_subscription now s)) with s.
        rewrite Ha. reflexivity.
Qed.

Lemma integrity_faults_as_handled_witness :
  let inverted := mksub (Some 5%Z) (Some (d 2024 3 1)) (Some (d 2024 2 1)) (Some 900) in
  let s := negative_subscription in
  let jan := month_end (mkym 2024 1) in
  let row := Summary.mk
               (Monthly.mk (mkym 2024 1) (d 2024 1 31) 1200 0 0 0 1200 (-500) 1
                           (FNum (-500)))
               FNaN FNaN FNaN in
  date_le (d 2024 2 1) (d 2024 3 1)
  /\ active_on inverted jan = false
  /\ get_segments (map (step3_subscription run_date) [inverted]) = []
  /\ run_pipeline run_date ([] ++ inverted :: []) gap_transactions
     = run_pipeline run_date ([] ++ []) gap_transactions
  /\ (-500 < 0 /\ active_on s jan = true)
  /\ Sub.customer_segment (step3_subscription run_date s) = None
  /\ In row (pipeline_summary (run_pipeline run_date ([] ++ s :: []) gap_transactions))
  /\ Summary.active_customers row = 1%nat
  /\ Summary.current_arr row = nansum [Some (-500)].
Proof.
  intros inverted s jan row.
  assert (Hle : date_le (d 2024 2 1) (d 2024 3 1)) by (unfold date_le; cbn; lia).
  assert (Hneg : -500 < 0) by reflexivity.
  assert (Hact : active_on s jan = true) by reflexivity.
  destruct (integrity_faults_as_handled run_date inverted) as [_ [_ [Hinv _]]].
  destruct (Hinv _ _ eq_refl eq_refl Hle [] []) as [Hdates [Hsegs Hrun]].
  destruct (integrity_faults_as_handled run_date s) as [_ [_ [_ Hs]]].
  destruct (Hs (-500) eq_refl Hneg) as [Hnone [_ Harr]].
  destruct (run_pipeline run_date ([] ++ s :: []) gap_transactions)
    as [[summary chain]|] eqn:E; [|vm_compute in E; discriminate E].
  assert (Hin : In row summary).
  { vm_compute in E. injection E as <- _. left. reflexivity. }
  destruct (Harr [] [] gap_transactions summary chain row E Hin Hact)
    as [Hcount Hsum].
  split; [exact Hle|].
  split; [exact (proj1 (Hdates jan))|].
  split; [exact Hsegs|].
  split; [exact (Hrun gap_transactions)|].
  split; [split; [exact Hneg | exact Hact]|].
  split; [exact Hnone|].
  split; [exact Hin|].
  split; [exact Hcount | exact Hsum].
Defined.

(* ------------------------------------------------------------------ *)
(** ** Annualised amounts *)

Lemma Qabs_opp_eq a : Qabs (- a) = Qabs a.
Proof. destruct a as [n dn]. unfold Qabs, Qopp. cbn. now rewrite Z.abs_opp. Qed.

Lemma annualize_flip_churn_sign t :
  annualize (flip_churn_sign t) = annualize t
  /\ transaction_type (flip_churn_sign t) = transaction_type t
  /\ transaction_date (flip_churn_sign t) = transaction_date t.
Proof.
  unfold flip_churn_sign.
  destruct (String.eqb_spec (transaction_type t) "churn") as [E|E];
    [|repeat split].
  repeat split. unfold annualize. cbn [transaction_type amount].
  rewrite E.
  assert (F : existsb (String.eqb "churn")
                      ["new"; "expansion"; "contraction"]%string = false)
    by reflexivity.
  rewrite F. now rewrite Qabs_opp_eq.
Qed.

Lemma type_sum_flip_churn_sign ty k txns :
  type_sum ty (filter (fun t => ym_eqb (Txn.year_month t) k)
                      (map step3_transaction (map flip_churn_sign txns)))
  = type_sum ty (filter (fun t => ym_eqb (Txn.year_month t) k)
                        (map step3_transaction txns)).
Proof.
  unfold type_sum. induction txns as [|t txns IH]; [reflexivity|].
  destruct (annualize_flip_churn_sign t) as [Ha [Hty Hd]].
  cbn [map filter step3_transaction Txn.year_month]. rewrite Hd.
  destruct (ym_eqb (strftime_ym (transaction_date t)) k); [|exact IH].
  cbn [filter].
  change (Txn.base (step3_transaction (flip_churn_sign t)))
    with (flip_churn_sign t).
  change (Txn.base (step3_transaction t)) with t.
  rewrite Hty.
  destruct (String.eqb (transaction_type t) ty); [|exact IH].
  cbn [map Qsum fold_right].
  change (Txn.annualized_amount (step3_transaction (flip_churn_sign t)))
    with (annualize (flip_churn_sign t)).
  change (Txn.annualized_amount (step3_transaction t)) with (annualize t).
  rewrite Ha. f_equal. exact IH.
Qed.

(** X11.  The summary and the bridge do not depend on the sign with
    which the ledger records churn: reversing the sign of every churn
    amount leaves the result of [step4_arr_calculations] unchanged. *)
Theorem churn_sign_is_irrelevant subs txns :
  step4_arr_calculations subs (map step3_transaction (map flip_churn_sign txns))
  = step4_arr_calculations subs (map step3_transaction txns).
Proof.
  assert (Hm : all_months (map step3_transaction (map flip_churn_sign txns))
               = all_months (map step3_transaction txns)).
  { unfold all_months. f_equal. f_equal. rewrite !map_map.
    apply map_ext. intro t. cbn.
    now rewrite (proj2 (proj2 (annualize_flip_churn_sign t))). }
  assert (Hr : monthly_arr_data subs (map step3_transaction (map flip_churn_sign txns))
               = monthly_arr_data subs (map step3_transaction txns)).
  { unfold monthly_arr_data. rewrite Hm. apply map_ext. intro k.
    unfold monthly_row. rewrite !type_sum_flip_churn_sign. reflexivity. }
  unfold step4_arr_calculations. rewrite Hm, Hr. reflexivity.
Qed.

(* ------------------------------------------------------------------ *)
(** ** The last rows of a frame *)

Lemma tail_length {A : Type} n (df : list A) :
  length (tail n df) = Nat.min n (length df).
Proof. unfold tail. rewrite length_skipn. lia. Qed.

Lemma tail_short {A : Type} n (df : list A) :
  (length df <= n)%nat -> tail n df = df.
Proof.
  intro H. unfold tail. replace (length df - n)%nat with 0%nat by lia.
  reflexivity.
Qed.

Lemma tail_app_exact {A : Type} (old recent : list A) :
  tail (length recent) (old ++ recent) = recent.
Proof.
  unfold tail. rewrite length_app.
  replace (length old + length recent - length recent)%nat
    with (length old) by lia.
  rewrite skipn_app, skipn_all, Nat.sub_diag. reflexivity.
Qed.

Lemma tail_map {A B : Type} (f : A -> B) n (df : list A) :
  map f (tail n df) = tail n (map f df).
Proof. unfold tail. now rewrite skipn_map, length_map. Qed.

Lemma iloc_second_last_app {A : Type} (l : list A) p x :
  iloc_second_last (l ++ [p; x]) = Some p.
Proof.
  unfold iloc_second_last. rewrite rev_app_distr. reflexivity.
Qed.

Lemma two_last_rows {A : Type} (df : list A) :
  (2 <= length df)%nat -> exists l p x, df = l ++ [p; x].
Proof.
  intro H. destruct df as [|a df]; [cbn in H; lia|].
  destruct (exists_last (l := a :: df) ltac:(discriminate)) as [l1 [x E1]].
  rewrite E1 in *. rewrite length_app in H. cbn in H.
  destruct l1 as [|b l1]; [cbn in H; lia|].
  destruct (exists_last (l := b :: l1) ltac:(discriminate)) as [l2 [p E2]].
  exists l2, p, x. rewrite E2, <- app_assoc. reflexivity.
Qed.

Lemma iloc_last_app2 {A : Type} (l : list A) p x :
  iloc_last (l ++ [p; x]) = Some x.
Proof.
  change [p; x] with ([p] ++ [x]). rewrite app_assoc. apply iloc_last_app.
Qed.

Lemma previous_row_app {A : Type} (l : list A) p x :
  previous_row (l ++ [p; x]) x = p.
Proof.
  unfold previous_row. rewrite iloc_second_last_app, length_app. cbn [length].
  destruct (Nat.ltb_spec 1 (length l + 2)); [reflexivity | lia].
Qed.

(* ------------------------------------------------------------------ *)
(** ** [get_trend] and [create_arr_kpi_summary] *)

(** X13.  [get_trend] returns one entry for each of the last twelve
    summary rows (all rows when there are fewer), in their order, and no
    entry carries a NaN growth rate: a missing rate is sent as 0. *)
Theorem trend_covers_last_twelve_months (arr_summary : list Summary.row) :
  length (get_trend arr_summary) = Nat.min 12 (length arr_summary)
  /\ map Trend.month (get_trend arr_summary)
     = tail 12 (map Summary.month arr_summary)
  /\ map Trend.current_arr (get_trend arr_summary)
     = tail 12 (map Summary.current_arr arr_summary)
  /\ (forall e, In e (get_trend arr_summary) ->
                notna (Trend.arr_growth_rate e) = true)
  /\ (forall old recent,
        length recent = 12%nat ->
        get_trend (old ++ recent) = get_trend recent).
Proof.
  unfold get_trend. split; [|split; [|split; [|split]]].
  - rewrite length_map. apply tail_length.
  - rewrite map_map, <- tail_map. reflexivity.
  - rewrite map_map, <- tail_map. reflexivity.
  - intros e He. apply in_map_iff in He. destruct He as [row [<- _]].
    cbn. destruct (Summary.arr_growth_rate row); reflexivity.
  - intros old recent H12. rewrite <- H12 at 1. rewrite tail_app_exact.
    rewrite tail_short by lia. reflexivity.
Qed.

(** X14.  [create_arr_kpi_summary] fails only on an empty frame; its
    twelve-month average is taken over the last twelve rows alone, so
    with at most twelve rows it is the average growth the validator
    computes, and earlier rows never change it. *)
Theorem kpi_summary_average_uses_last_twelve_rows :
  (forall df, create_arr_kpi_summary df = None <-> df = [])
  /\ (forall df s,
        (length df <= 12)%nat ->
        create_arr_kpi_summary df = Some s ->
        KpiSummary.avg_12m_growth s = fmean (map Summary.arr_growth_rate df))
  /\ (forall old recent s,
        length recent = 12%nat ->
        create_arr_kpi_summary (old ++ recent) = Some s ->
        KpiSummary.avg_12m_growth s = fmean (map Summary.arr_growth_rate recent)).
Proof.
  split; [|split].
  - intro df. unfold create_arr_kpi_summary.
    rewrite <- iloc_last_None_iff.
    destruct (iloc_last df); split; congruence.
  - intros df s Hlen. unfold create_arr_kpi_summary.
    destruct (iloc_last df); [|discriminate].
    intros [= <-]. cbn. now rewrite tail_short.
  - intros old recent s H12. unfold create_arr_kpi_summary.
    destruct (iloc_last (old ++ recent)); [|discriminate].
    intros [= <-]. cbn. rewrite <- H12. now rewrite tail_app_exact.
Qed.

(* ------------------------------------------------------------------ *)
(** ** [get_kpis] and [create_executive_metrics] *)

Lemma get_kpis_two_rows l p x :
  get_kpis (l ++ [p; x])
  = Some (Kpis.mk
            (Summary.current_arr x)
            (Summary.active_customers x)
            (fdiv (FNum (Summary.current_arr x))
                  (FNum (inject_Z (Z.of_nat (Summary.active_customers x)))))
            (if notna (Summary.arr_growth_rate x)
             then Summary.arr_growth_rate x
             else FNum 0)
            (Summary.current_arr x - Summary.current_arr p)
            (Z.of_nat (Summary.active_customers x)
             - Z.of_nat (Summary.active_customers p))%Z).
Proof.
  unfold get_kpis.
  rewrite iloc_last_app2, iloc_second_last_app, length_app. cbn [length].
  destruct (Nat.ltb_spec 1 (length l + 2)); [reflexivity | lia].
Qed.

(** X15.  [get_kpis] answers with an error exactly on an empty summary.
    With a single row it compares the row with itself, so both changes
    are zero; with more rows the changes are the differences between the
    last row and the one before it, whatever the earlier rows are. *)
Theorem kpis_compare_the_last_two_rows :
  (forall df, get_kpis df = None <-> df = [])
  /\ (forall x, exists k,
        get_kpis [x] = Some k
        /\ Kpis.current_arr k = Summary.current_arr x
        /\ Kpis.arr_change k == 0
        /\ Kpis.customer_change k = 0%Z)
  /\ (forall l p x, exists k,
        get_kpis (l ++ [p; x]) = Some k
        /\ Kpis.current_arr k = Summary.current_arr x
        /\ Kpis.arr_change k = Summary.current_arr x - Summary.current_arr p
        /\ Kpis.customer_change k
           = (Z.of_nat (Summary.active_customers x)
              - Z.of_nat (Summary.active_customers p))%Z).
Proof.
  split; [|split].
  - intro df. unfold get_kpis. rewrite <- iloc_last_None_iff.
    destruct (iloc_last df); split; congruence.
  - intro x. eexists. split; [reflexivity|]. cbn.
    split; [reflexivity|]. split; [ring | lia].
  - intros l p x. rewrite get_kpis_two_rows.
    eexists. split; [reflexivity|]. cbn. repeat split.
Qed.

(** X16.  [create_executive_metrics] and [get_kpis] fail on the same
    frames and otherwise report the same current ARR, ARR change,
    customer count and customer change; the executive metrics take ARR
    per customer from the summary column. *)
Theorem executive_metrics_agree_with_kpis (df : list Summary.row) :
  (create_executive_metrics df = None <-> get_kpis df = None)
  /\ forall e k,
       create_executive_metrics df = Some e -> get_kpis df = Some k ->
       Exec.current_arr e = Kpis.current_arr k
       /\ Exec.arr_change e = Kpis.arr_change k
       /\ Exec.active_customers e = Kpis.active_customers k
       /\ Exec.customer_change e = Kpis.customer_change k
       /\ exists latest, iloc_last df = Some latest
                         /\ Exec.arr_per_customer e = Summary.arr_per_customer latest
                         /\ Exec.arr_growth_rate e = Summary.arr_growth_rate latest.
Proof.
  unfold create_executive_metrics, get_kpis, previous_row.
  destruct (iloc_last df) as [latest|]; [|split; [tauto | discriminate]].
  split; [split; discriminate|].
  intros e k [= <-] [= <-]. cbn. repeat split. exists latest. repeat split.
Qed.

(* ------------------------------------------------------------------ *)
(** ** [get_segments] *)

Lemma get_segments_arr subs :
  map Seg.arr (get_segments subs)
  = map seg_arr_of (groupby_segment (filter Sub.is_active subs)).
Proof.
  unfold get_segments. rewrite map_map. apply map_ext.
  intros [[g a] c]. reflexivity.
Qed.

Lemma get_segments_keys subs :
  map Seg.segment_ (get_segments subs)
  = map seg_key_of (groupby_segment (filter Sub.is_active subs)).
Proof.
  unfold get_segments. rewrite map_map. apply map_ext.
  intros [[g a] c]. reflexivity.
Qed.

Lemma get_segments_total subs :
  Qsum (map (fun '(_, a, _) => a) (groupby_segment (filter Sub.is_active subs)))
  = Qsum (map Seg.arr (get_segments subs)).
Proof.
  rewrite get_segments_arr. reflexivity.
Qed.

(** X17.  The percentage of every row returned by [get_segments] is
    the row's ARR divided by the total of the rows' ARR, times 100, when
    that total is positive; otherwise every percentage is 0 and nothing
    is divided.  When a single segment holds all the ARR and it is
    positive, its percentage is 100. *)
Theorem segment_percentages_of_total (subs : list Sub.row) :
  let rows := get_segments subs in
  let total := Qsum (map Seg.arr rows) in
  (0 < total ->
   forall r, In r rows -> Seg.percentage r = Seg.arr r / total * 100)
  /\ (total <= 0 -> forall r, In r rows -> Seg.percentage r = 0)
  /\ (forall r, rows = [r] -> 0 < Seg.arr r -> Seg.percentage r == 100).
Proof.
  intros rows total.
  assert (Hp : forall r, In r rows ->
            Seg.percentage r
            = if Qltb 0 total then Seg.arr r / total * 100 else 0).
  { subst total rows. rewrite <- get_segments_total.
    unfold get_segments. intros r Hr. apply in_map_iff in Hr.
    destruct Hr as [[[g a] c] [<- _]]. reflexivity. }
  split; [|split].
  - intros Hpos r Hr. rewrite (Hp r Hr).
    assert (E : Qltb 0 total = true) by (now apply Qltb_lt).
    rewrite E. reflexivity.
  - intros Hle r Hr. rewrite (Hp r Hr).
    assert (E : Qltb 0 total = false) by (now apply Qltb_ge).
    rewrite E. reflexivity.
  - intros r Hrows Hpos.
    assert (Hr : In r rows) by (rewrite Hrows; now left).
    assert (Ht : total == Seg.arr r).
    { subst total. rewrite Hrows. cbn. ring. }
    assert (E : Qltb 0 total = true) by (apply Qltb_lt; lra).
    rewrite (Hp r Hr), E, Ht. field. lra.
Qed.

Lemma segment_percentages_of_total_witness :
  let subs := map (step3_subscription run_date) [scenario_a_subscription] in
  let r := Seg.mk MidMarket (1200 + 0) 1 ((1200 + 0) / (1200 + 0 + 0) * 100) in
  get_segments subs = [r]
  /\ 0 < Seg.arr r
  /\ Seg.percentage r == 100.
Proof.
  intros subs r.
  assert (Hrows : get_segments subs = [r]) by reflexivity.
  assert (Hpos : 0 < Seg.arr r) by reflexivity.
  split; [exact Hrows|]. split; [exact Hpos|].
  exact (proj2 (proj2 (segment_percentages_of_total subs)) r Hrows Hpos).
Defined.

Lemma filter_nil_existsb {A : Type} (f : A -> bool) l :
  filter f l = [] <-> existsb f l = false.
Proof.
  induction l as [|a l IH]; cbn; [tauto|].
  destruct (f a); cbn; [split; discriminate | exact IH].
Qed.

Lemma groupby_segment_keys active :
  map seg_key_of (groupby_segment active)
  = filter (fun g => existsb (in_segment g) active) groupby_key_order.
Proof.
  unfold groupby_segment.
  induction groupby_key_order as [|g keys IH]; [reflexivity|].
  cbn [flat_map filter]. rewrite map_app, IH.
  destruct (filter (in_segment g) active) as [|m ms] eqn:E.
  - apply filter_nil_existsb in E. rewrite E. reflexivity.
  - destruct (existsb (in_segment g) active) eqn:E'; [reflexivity|].
    apply filter_nil_existsb in E'. congruence.
Qed.

Lemma In_groupby_segment active g a c :
  In (g, a, c) (groupby_segment active) ->
  let members := filter (in_segment g) active in
  members <> []
  /\ a = nansum (map (fun s => arr_amount (Sub.base s)) members)
  /\ c = count_notna (map (fun s => customer_id (Sub.base s)) members).
Proof.
  intros H members. unfold groupby_segment in H. apply in_flat_map in H.
  destruct H as [g' [_ H]].
  destruct (filter (in_segment g') active) as [|m ms] eqn:E; [destruct H|].
  destruct H as [H|[]]. injection H as <- <- <-. subst members. rewrite E.
  split; [discriminate | split; reflexivity].
Qed.

Lemma segment_eqb_eq a b : segment_eqb a b = true <-> a = b.
Proof. destruct a, b; cbn; split; congruence. Qed.

(** X18.  [get_segments] returns one row for each label carried by at
    least one active subscription, in the fixed order Enterprise,
    Mid-Market, SMB, Strategic and without repetition; a label with no
    active subscription gets no row; the ARR of a row is the sum of the
    amounts of the active subscriptions carrying its label and its
    customer count is the number of their customer ids. *)
Theorem segment_rows_follow_active_labels (subs : list Sub.row) :
  let rows := get_segments subs in
  (forall g, In g (map Seg.segment_ rows)
             <-> exists s, In s subs /\ Sub.is_active s = true
                           /\ Sub.customer_segment s = Some g)
  /\ NoDup (map Seg.segment_ rows)
  /\ (exists keep, map Seg.segment_ rows = filter keep groupby_key_order)
  /\ (forall r, In r rows ->
        let members :=
          filter (in_segment (Seg.segment_ r)) (filter Sub.is_active subs) in
        members <> []
        /\ Seg.arr r = nansum (map (fun s => arr_amount (Sub.base s)) members)
        /\ Seg.customers r
           = count_notna (map (fun s => customer_id (Sub.base s)) members)).
Proof.
  intro rows. subst rows.
  split; [|split; [|split]].
  - rewrite get_segments_keys, groupby_segment_keys.
    intro g. rewrite filter_In, existsb_exists. split.
    + intros [_ [s [Hs Hg]]]. apply filter_In in Hs. destruct Hs as [Hs Ha].
      exists s. split; [exact Hs|]. split; [exact Ha|].
      unfold in_segment in Hg. destruct (Sub.customer_segment s) as [g'|];
        [|discriminate]. apply segment_eqb_eq in Hg. now subst.
    + intros [s [Hs [Ha Hg]]]. split.
      * destruct g; cbn; auto.
      * exists s. split; [apply filter_In; auto|].
        unfold in_segment. rewrite Hg. now apply segment_eqb_eq.
  - rewrite get_segments_keys, groupby_segment_keys.
    apply NoDup_filter. unfold groupby_key_order.
    repeat constructor; cbn; intuition discriminate.
  - rewrite get_segments_keys, groupby_segment_keys. eexists. reflexivity.
  - intros r Hr. unfold get_segments in Hr. apply in_map_iff in Hr.
    destruct Hr as [[[g a] c] [<- Hin]]. cbn [Seg.segment_ Seg.arr Seg.customers].
    apply In_groupby_segment. exact Hin.
Qed.

(* ------------------------------------------------------------------ *)
(** ** The consumers on the output of the pipeline *)

Lemma growth_columns_later_amount rows i sr :
  nth_error (growth_columns rows) (S i) = Some sr ->
  exists before,
    nth_error rows i = Some before
    /\ Summary.arr_growth_amount sr
       = FNum (Summary.current_arr sr - Monthly.current_arr before).
Proof.
  unfold growth_columns, shift1.
  rewrite nth_error_map, nth_error_combine, nth_error_shift_from_S.
  rewrite !nth_error_map.
  destruct (nth_error rows (S i)) as [r|] eqn:Er; [|discriminate].
  cbn [option_map].
  destruct (nth_error rows i) as [before|] eqn:Eb.
  - cbn. intros [= <-]. exists before. split; reflexivity.
  - exfalso. apply nth_error_None in Eb.
    assert (nth_error rows (S i) = None) by (apply nth_error_None; lia).
    congruence.
Qed.

Lemma nth_error_two_last {A : Type} (l : list A) p x :
  nth_error (l ++ [p; x]) (length l) = Some p
  /\ nth_error (l ++ [p; x]) (S (length l)) = Some x.
Proof.
  split.
  - rewrite nth_error_app2, Nat.sub_diag by lia. reflexivity.
  - rewrite nth_error_app2 by lia.
    replace (S (length l) - length l)%nat with 1%nat by lia. reflexivity.
Qed.

(** X19.  On a summary built by the pipeline, the figures of [get_kpis]
    are those of the latest summary row: with at least one active
    customer its ARR per customer is the arr_per_customer column, with
    at least two months its ARR change is the arr_growth_amount column,
    and its monthly growth is the arr_growth_rate column, or 0 when that
    is NaN. *)
Theorem kpis_match_the_latest_summary_row subs txns summary chain latest k :
  step4_arr_calculations subs txns = Some (summary, chain) ->
  iloc_last summary = Some latest ->
  get_kpis summary = Some k ->
  ((0 < Summary.active_customers latest)%nat ->
   Kpis.arr_per_customer k = Summary.arr_per_customer latest)
  /\ ((2 <= length summary)%nat ->
      Summary.arr_growth_amount latest = FNum (Kpis.arr_change k))
  /\ (Kpis.monthly_growth k = Summary.arr_growth_rate latest
      \/ (Summary.arr_growth_rate latest = FNaN
          /\ Kpis.monthly_growth k = FNum 0)).
Proof.
  intros H Hl Hk.
  pose proof (summary_row_is_loop_body _ _ _ _ _ H (iloc_last_In _ _ Hl)) as Hd.
  split; [|split].
  - intro Hpos. unfold get_kpis in Hk. rewrite Hl in Hk.
    injection Hk as <-. cbn [Kpis.arr_per_customer].
    unfold Summary.arr_per_customer, Summary.current_arr,
      Summary.active_customers in *.
    rewrite Hd in Hpos |- *.
    cbn [monthly_row Monthly.arr_per_customer Monthly.current_arr
         Monthly.active_customers] in Hpos |- *.
    set (n := length _) in *.
    destruct (Nat.ltb_spec 0 n); [|lia]. reflexivity.
  - intro H2. destruct (two_last_rows summary H2) as [l [p [x E]]].
    rewrite E in Hl, Hk. rewrite iloc_last_app2 in Hl. injection Hl as ->.
    rewrite get_kpis_two_rows in Hk. injection Hk as <-.
    cbn [Kpis.arr_change].
    pose proof (step4_inv _ _ _ _ H) as [Hs _].
    destruct (nth_error_two_last l p latest) as [Hp Hx].
    rewrite <- E, Hs in Hx.
    destruct (growth_columns_later_amount _ _ _ Hx) as [before [Hb Ha]].
    assert (Hbp : before = Summary.data p).
    { rewrite <- (growth_columns_data (monthly_arr_data subs txns)) in Hb.
      rewrite <- Hs, E, nth_error_map, Hp in Hb. cbn in Hb. congruence. }
    rewrite Ha, Hbp. reflexivity.
  - unfold get_kpis in Hk. rewrite Hl in Hk. injection Hk as <-.
    cbn [Kpis.monthly_growth].
    destruct (Summary.arr_growth_rate latest); cbn; auto.
Qed.

Lemma kpis_match_the_latest_summary_row_witness :
  let subs := map (step3_subscription run_date) drift_subscriptions in
  let txns := map step3_transaction (dropna drift_transactions) in
  exists latest k,
    step4_arr_calculations subs txns = Some (drift_summary, drift_chain)
    /\ iloc_last drift_summary = Some latest
    /\ get_kpis drift_summary = Some k
    /\ (2 <= length drift_summary)%nat
    /\ Summary.arr_growth_amount latest = FNum (Kpis.arr_change k).
Proof.
  intros subs txns.
  assert (H : step4_arr_calculations subs txns = Some (drift_summary, drift_chain))
    by (vm_compute; reflexivity).
  destruct (iloc_last drift_summary) as [latest|] eqn:El; [|discriminate El].
  destruct (get_kpis drift_summary) as [k|] eqn:Ek; [|discriminate Ek].
  assert (H2 : (2 <= length drift_summary)%nat) by (cbn; lia).
  exists latest, k. split; [exact H|]. split; [reflexivity|].
  split; [reflexivity|]. split; [exact H2|].
  exact (proj1 (proj2 (kpis_match_the_latest_summary_row subs txns _ _ latest k
                         H El Ek)) H2).
Defined.

(** X20.  On the output of the pipeline [get_waterfall] and [get_kpis]
    describe the same month: the ending ARR of the waterfall is the
    current ARR of the KPIs and, with at least two months, ending ARR
    minus starting ARR is the ARR change of the KPIs.  With a single
    month the waterfall starts at 0 while the KPIs report no change. *)
Theorem waterfall_agrees_with_kpis subs txns summary chain w k :
  step4_arr_calculations subs txns = Some (summary, chain) ->
  get_waterfall chain = Some w ->
  get_kpis summary = Some k ->
  Waterfall.ending_arr w = Kpis.current_arr k
  /\ ((2 <= length summary)%nat ->
      Waterfall.ending_arr w - Waterfall.starting_arr w = Kpis.arr_change k)
  /\ (length summary = 1%nat ->
      Waterfall.starting_arr w = 0 /\ Kpis.arr_change k == 0).
Proof.
  intros H Hw Hk.
  pose proof (step4_inv _ _ _ _ H) as [_ [Hc Hlen]].
  assert (Hl : length chain = length summary)
    by (rewrite Hc; apply rollforward_data_length).
  unfold get_waterfall in Hw.
  destruct (iloc_last chain) as [last|] eqn:Elast; [|discriminate].
  injection Hw as <-.
  cbn [Waterfall.ending_arr Waterfall.starting_arr].
  rewrite iloc_last_nth_error, Hl, Hc in Elast.
  apply nth_error_rollforward_data in Elast.
  destruct Elast as [row [Hrow [_ [Hst [_ [_ [_ [_ [Hend _]]]]]]]]].
  rewrite <- iloc_last_nth_error in Hrow.
  assert (Hcur : Kpis.current_arr k = Summary.current_arr row).
  { unfold get_kpis in Hk. rewrite Hrow in Hk. injection Hk as <-. reflexivity. }
  split; [congruence|]. split.
  - intro H2. destruct (two_last_rows summary H2) as [l [p [x E]]].
    rewrite E in Hrow, Hk, Hst. rewrite iloc_last_app2 in Hrow.
    injection Hrow as ->. rewrite get_kpis_two_rows in Hk. injection Hk as <-.
    cbn [Kpis.arr_change]. rewrite Hend, Hst, length_app. cbn [length].
    replace (length l + 2 - 1)%nat with (S (length l)) by lia.
    cbn [Nat.eqb]. rewrite Nat.sub_succ, Nat.sub_0_r.
    f_equal. f_equal. apply nth_error_nth.
    rewrite nth_error_map, (proj1 (nth_error_two_last l p row)). reflexivity.
  - intro H1. rewrite H1 in Hst. cbn in Hst. split; [exact Hst|].
    destruct summary as [|x [|y rest]]; try discriminate H1.
    cbn in Hk. injection Hk as <-. cbn. ring.
Qed.

Lemma waterfall_agrees_with_kpis_witness :
  let subs := map (step3_subscription run_date) drift_subscriptions in
  let txns := map step3_transaction (dropna drift_transactions) in
  exists w k,
    step4_arr_calculations subs txns = Some (drift_summary, drift_chain)
    /\ get_waterfall drift_chain = Some w
    /\ get_kpis drift_summary = Some k
    /\ Waterfall.ending_arr w = Kpis.current_arr k.
Proof.
  intros subs txns.
  assert (H : step4_arr_calculations subs txns = Some (drift_summary, drift_chain))
    by (vm_compute; reflexivity).
  destruct (get_waterfall drift_chain) as [w|] eqn:Ew; [|discriminate Ew].
  destruct (get_kpis drift_summary) as [k|] eqn:Ek; [|discriminate Ek].
  exists w, k. split; [exact H|]. split; [reflexivity|]. split; [reflexivity|].
  exact (proj1 (waterfall_agrees_with_kpis subs txns _ _ w k H Ew Ek)).
Defined.

(* ------------------------------------------------------------------ *)
(** ** [validate_dashboard_data] *)

(** A row compared with itself never shows the expected growth of 1.6:
    its growth is 0, or NaN when its ARR is 0. *)
Lemma self_growth_does_not_match c :
  fltb (fabs (fsub (fmul (fdiv (FNum (c - c)) (FNum c)) (FNum 100))
                   (FNum (16 # 10))))
       (FNum (1 # 2)) = false.
Proof.
  cbn [fdiv]. destruct (Qeq_bool c 0) eqn:E.
  - assert (Z0 : Qeq_bool (c - c) 0 = true) by (apply Qeq_bool_iff; ring).
    rewrite Z0. reflexivity.
  - apply Qeq_bool_false in E.
    cbn [fmul fsub fneg fadd fabs fltb]. apply Qltb_ge.
    assert (V : (c - c) / c * 100 + - (16 # 10) == - (16 # 10)) by (field; exact E).
    rewrite V. discriminate.
Qed.

Lemma andb_six_true a b c e f g :
  a && b && c && e && f && g = true
  <-> a = true /\ b = true /\ c = true /\ e = true /\ f = true /\ g = true.
Proof. destruct a, b, c, e, f, g; cbn; intuition congruence. Qed.

(** X21.  [validate_dashboard_data] answers False when the summary or
    the bridge is empty and whenever the summary has a single row.  It
    can answer True only for data whose latest month shows an ARR
    within 100 of 1,086,712, between 842 and 850 active customers, and
    a last bridge record whose components add up to within 100 of its
    ending ARR. *)
Theorem dashboard_validation_expects_fixed_figures :
  (forall arr_summary arr_rollforward subscriptions,
     arr_summary = [] \/ arr_rollforward = [] ->
     validate_dashboard_data arr_summary arr_rollforward subscriptions = false)
  /\ (forall row arr_rollforward subscriptions,
        validate_dashboard_data [row] arr_rollforward subscriptions = false)
  /\ (forall arr_summary arr_rollforward subscriptions,
        validate_dashboard_data arr_summary arr_rollforward subscriptions = true ->
        exists latest last,
          iloc_last arr_summary = Some latest
          /\ iloc_last arr_rollforward = Some last
          /\ Qabs (Summary.current_arr latest - 1086712) < 100
          /\ (842 <= Summary.active_customers latest <= 850)%nat
          /\ Qabs (calculated_ending last - Rollforward.ending_arr last) < 100).
Proof.
  split; [|split].
  - intros s r subs [-> | ->]; unfold validate_dashboard_data, dashboard_all_checks.
    + reflexivity.
    + destruct (iloc_last s); reflexivity.
  - intros row r subs. unfold validate_dashboard_data, dashboard_all_checks.
    cbn [iloc_last last]. destruct (iloc_last r) as [lastr|]; [|reflexivity].
    cbn [previous_row length Nat.ltb Nat.leb].
    cbn [arr_match customer_match arr_per_customer_match growth_match
         waterfall_check segment_match].
    rewrite self_growth_does_not_match.
    rewrite !andb_false_r. rewrite !andb_false_l. reflexivity.
  - intros s r subs Hv. unfold validate_dashboard_data, dashboard_all_checks in Hv.
    destruct (iloc_last s) as [latest|]; [|discriminate].
    destruct (iloc_last r) as [lastr|]; [|discriminate].
    cbn [arr_match customer_match arr_per_customer_match growth_match
         waterfall_check segment_match] in Hv.
    apply andb_six_true in Hv. destruct Hv as [H1 [H2 [_ [_ [H5 _]]]]].
    exists latest, lastr. split; [reflexivity|]. split; [reflexivity|].
    apply Qltb_lt in H1. apply Qltb_lt in H5. apply Z.ltb_lt in H2.
    split; [exact H1|]. split; [lia | exact H5].
Qed.

Lemma dashboard_validation_expects_fixed_figures_witness :
  validate_dashboard_data matching_summary matching_rollforward
                          matching_subscriptions = true
  /\ exists latest last,
       iloc_last matching_summary = Some latest
       /\ iloc_last matching_rollforward = Some last
       /\ Qabs (Summary.current_arr latest - 1086712) < 100
       /\ (842 <= Summary.active_customers latest <= 850)%nat
       /\ Qabs (calculated_ending last - Rollforward.ending_arr last) < 100.
Proof.
  assert (H : validate_dashboard_data matching_summary matching_rollforward
                                      matching_subscriptions = true)
    by (vm_compute; reflexivity).
  split; [exact H|].
  exact (proj2 (proj2 dashboard_validation_expects_fixed_figures) _ _ _ H).
Defined.

(* ------------------------------------------------------------------ *)
(** ** The bridge as a telescoping sum *)

Lemma Qsum_app l x : Qsum (l ++ [x]) == Qsum l + x.
Proof.
  induction l as [|a l IH]; cbn [app Qsum fold_right].
  - ring.
  - unfold Qsum in IH. rewrite IH. ring.
Qed.

Lemma firstn_snoc {A : Type} (l : list A) n x :
  nth_error l n = Some x -> firstn (S n) l = firstn n l ++ [x].
Proof.
  revert n. induction l as [|a l IH]; intros [|n] H; try discriminate.
  - cbn in H. injection H as ->. destruct l; reflexivity.
  - cbn [firstn app]. f_equal. apply IH. exact H.
Qed.

Lemma snapshot_changes_telescope subs txns summary chain :
  step4_arr_calculations subs txns = Some (summary, chain) ->
  forall n r,
    nth_error chain n = Some r ->
    Qsum (map snapshot_change (firstn (S n) chain)) == Rollforward.ending_arr r.
Proof.
  intros H. pose proof (step4_inv _ _ _ _ H) as [_ [Hc _]].
  induction n as [|n IH]; intros r Hr.
  - rewrite (firstn_snoc chain 0 r Hr). cbn [firstn app map Qsum fold_right].
    unfold snapshot_change.
    rewrite Hc in Hr. apply nth_error_rollforward_data in Hr.
    destruct Hr as [row [_ [_ [Hst _]]]]. cbn in Hst. rewrite Hst. ring.
  - destruct (nth_error chain n) as [before|] eqn:Eb.
    + rewrite (firstn_snoc chain (S n) r Hr), map_app.
      change (map snapshot_change [r]) with [snapshot_change r].
      rewrite Qsum_app, (IH before eq_refl).
      unfold snapshot_change.
      assert (Hlink : Rollforward.starting_arr r = Rollforward.ending_arr before).
      { rewrite Hc in Hr, Eb.
        apply nth_error_rollforward_data in Hr, Eb.
        destruct Eb as [rowb [Hrowb [_ [_ [_ [_ [_ [_ [Hend _]]]]]]]]].
        destruct Hr as [rowr [_ [_ [Hst _]]]].
        rewrite Hst, Hend. cbn [Nat.eqb]. rewrite Nat.sub_succ, Nat.sub_0_r.
        apply nth_error_nth. rewrite nth_error_map, Hrowb. reflexivity. }
      rewrite Hlink. ring.
    + exfalso. apply nth_error_None in Eb.
      assert (nth_error chain (S n) = None) by (apply nth_error_None; lia).
      congruence.
Qed.

(** X22.  The bridge telescopes: the month-over-month changes of the
    snapshot (ending_arr - starting_arr), added up over the whole
    chain, give the ending ARR of the last record, and added up over
    the first n+1 records give the ending ARR of record n. *)
Theorem snapshot_changes_add_up_to_ending_arr subs txns summary chain :
  step4_arr_calculations subs txns = Some (summary, chain) ->
  (forall n r, nth_error chain n = Some r ->
     Qsum (map snapshot_change (firstn (S n) chain)) == Rollforward.ending_arr r)
  /\ (exists last, iloc_last chain = Some last
        /\ Qsum (map snapshot_change chain) == Rollforward.ending_arr last).
Proof.
  intro H. split; [exact (snapshot_changes_telescope _ _ _ _ H)|].
  pose proof (step4_inv _ _ _ _ H) as [_ [Hc Hlen]].
  assert (Hl : length chain = length summary)
    by (rewrite Hc; apply rollforward_data_length).
  destruct (iloc_last chain) as [last|] eqn:E.
  - exists last. split; [reflexivity|].
    rewrite iloc_last_nth_error in E.
    pose proof (snapshot_changes_telescope _ _ _ _ H _ _ E) as T.
    replace (S (length chain - 1)) with (length chain) in T by lia.
    rewrite firstn_all in T. exact T.
  - apply iloc_last_None_iff in E. rewrite E in Hl. cbn in Hl. lia.
Qed.

Lemma snapshot_changes_add_up_to_ending_arr_witness :
  let subs := map (step3_subscription run_date) drift_subscriptions in
  let txns := map step3_transaction (dropna drift_transactions) in
  step4_arr_calculations subs txns = Some (drift_summary, drift_chain)
  /\ exists last, iloc_last drift_chain = Some last
       /\ Qsum (map snapshot_change drift_chain) == Rollforward.ending_arr last.
Proof.
  intros subs txns.
  assert (H : step4_arr_calculations subs txns = Some (drift_summary, drift_chain))
    by (vm_compute; reflexivity).
  split; [exact H|].
  exact (proj2 (snapshot_changes_add_up_to_ending_arr subs txns _ _ H)).
Defined.

(* ------------------------------------------------------------------ *)
(** ** Instances of the conditional statements above *)

Lemma validation_raises_only_on_empty_frames_witness :
  let subs := map (step3_subscription run_date) drift_subscriptions in
  let txns := map step3_transaction (dropna drift_transactions) in
  step4_arr_calculations subs txns = Some (drift_summary, drift_chain)
  /\ exists verdict, step6_data_validation drift_summary drift_chain = Some verdict.
Proof.
  intros subs txns.
  assert (H : step4_arr_calculations subs txns = Some (drift_summary, drift_chain))
    by (vm_compute; reflexivity).
  split; [exact H|].
  exact (proj2 validation_raises_only_on_empty_frames subs txns _ _ H).
Defined.

Lemma kpi_summary_average_uses_last_twelve_rows_witness :
  exists s,
    (length drift_summary <= 12)%nat
    /\ create_arr_kpi_summary drift_summary = Some s
    /\ KpiSummary.avg_12m_growth s
       = fmean (map Summary.arr_growth_rate drift_summary).
Proof.
  assert (Hlen : (length drift_summary <= 12)%nat) by (cbn; lia).
  destruct (create_arr_kpi_summary drift_summary) as [s|] eqn:E; [|discriminate E].
  exists s. split; [exact Hlen|]. split; [reflexivity|].
  exact (proj1 (proj2 kpi_summary_average_uses_last_twelve_rows)
           drift_summary s Hlen E).
Defined.

Lemma trend_covers_last_twelve_months_witness :
  let recent := concat (repeat drift_summary 6) in
  length recent = 12%nat
  /\ get_trend (drift_summary ++ recent) = get_trend recent.
Proof.
  intro recent.
  assert (H12 : length recent = 12%nat) by reflexivity.
  split; [exact H12|].
  exact (proj2 (proj2 (proj2 (proj2
           (trend_covers_last_twelve_months (drift_summary ++ recent)))))
           drift_summary recent H12).
Defined.

Lemma executive_metrics_agree_with_kpis_witness :
  exists e k,
    create_executive_metrics drift_summary = Some e
    /\ get_kpis drift_summary = Some k
    /\ Exec.current_arr e = Kpis.current_arr k
    /\ Exec.arr_change e = Kpis.arr_change k.
Proof.
  destruct (create_executive_metrics drift_summary) as [e|] eqn:Ee;
    [|discriminate Ee].
  destruct (get_kpis drift_summary) as [k|] eqn:Ek; [|discriminate Ek].
  destruct (proj2 (executive_metrics_agree_with_kpis drift_summary) e k Ee Ek)
    as [H1 [H2 _]].
  exists e, k. split; [reflexivity|]. split; [reflexivity|].
  split; [exact H1 | exact H2].
Defined.
